(** * ExecuTorch portable tensor descriptor: shape, strides and resizing

    A shallow embedding of [runtime/core/portable_type/tensor_impl.cpp]
    (the [TensorImpl] constructor, [compute_numel] and
    [TensorImpl::internal_resize_contiguous]) and of the delegate hooks of
    [runtime/core/event_tracer_hooks_delegate.h], with the properties the
    design document states about them.

    Conventions of the embedding:
    - a machine integer is a [Z]; [ssize_t] arithmetic is 64-bit two's
      complement and the wrap-around of [numel *= sizes[i]] is written out
      ([wrap_ssize]); the cells of a sizes buffer are [int32_t]
      ([SizesType], declared in [tensor_impl.h]), so an extent may be
      negative; [numel_] is an [ssize_t] and [numel_bound_] a [size_t],
      so the bound is stored and compared unsigned ([to_size_t]); the
      strides are the products the design document describes, not
      reduced to a width;
    - a caller-owned buffer is the list of its cells; a null pointer is
      [None]; the buffers of one descriptor do not overlap;
    - [p[i]] is stdpp's list lookup and [p[i] = v] its insert.  Reading
      or writing past the end of a buffer is undefined in C++; the model
      reads [0] and writes nothing there, and the theorems that depend on
      it assume buffers of [dim_] cells;
    - an operation that mutates the descriptor returns the new
      descriptor next to its [Error]. *)

From Stdlib Require Import ZArith Lia.
From stdpp Require Import base list gmap.

Local Open Scope Z_scope.

(** ** Machine integers *)

Module Int.

Definition ssize_min : Z := - 2 ^ 63.
Definition ssize_max : Z := 2 ^ 63 - 1.
Definition int32_min : Z := - 2 ^ 31.
Definition int32_max : Z := 2 ^ 31 - 1.

(** The values of [ssize_t]. *)
Definition in_ssize (z : Z) : Prop := ssize_min <= z <= ssize_max.

(** The values of [int32_t], the type of the cells of a sizes buffer. *)
Definition in_int32 (z : Z) : Prop := int32_min <= z <= int32_max.

(** Reduction of an integer into [ssize_t] (two's complement, 64 bits). *)
Definition wrap_ssize (z : Z) : Z := (z + 2 ^ 63) mod 2 ^ 64 - 2 ^ 63.

(** Conversion of an [ssize_t] to [size_t], as the usual arithmetic
    conversions do when the two are compared. *)
Definition to_size_t (z : Z) : Z := z mod 2 ^ 64.

End Int.
Export Int.

(** ** Errors, policies, the descriptor *)

(** The codes of [runtime/core/error.h] that the resize path returns. *)
Inductive Error : Type :=
  | Ok
  | Internal
  | NotSupported.

#[global] Instance Error_eq_dec : EqDecision Error.
Proof. solve_decision. Defined.

Inductive TensorShapeDynamism : Type :=
  | STATIC
  | DYNAMIC_BOUND
  | DYNAMIC_UNBOUND.

#[global] Instance TensorShapeDynamism_eq_dec : EqDecision TensorShapeDynamism.
Proof. solve_decision. Defined.

(** [ScalarType] is an [int8_t]-backed enumeration; only its tag is kept. *)
Definition ScalarType : Type := Z.

(** The members of [TensorImpl], in the order of the constructor's
    initialiser list. *)
Record TensorImpl : Type := mkTensorImpl {
  sizes_ : list Z;
  dim_order_ : option (list Z);
  strides_ : option (list Z);
  data_ : Z;
  dim_ : Z;
  numel_ : Z;
  numel_bound_ : Z;
  type_ : ScalarType;
  shape_dynamism_ : TensorShapeDynamism
}.

(** ** [compute_numel] *)

(** The body of the [for] loop, [n] iterations from index [i] on. *)
Fixpoint compute_numel_loop (sizes : list Z) (i n : nat) (numel : Z) : Z :=
  match n with
  | O => numel
  | S n' =>
      compute_numel_loop sizes (S i) n'
        (wrap_ssize (numel * default 0 (sizes !! i)))
  end.

Definition compute_numel (sizes : list Z) (dim : Z) : Z :=
  compute_numel_loop sizes 0 (Z.to_nat dim) 1.

(** ** Construction *)

Section Constructor.

(** [isValid] of [scalar_type_util.h], the type registry's validity test. *)
Variable isValid : ScalarType -> bool.

(** The constructor; [None] stands for the abort of [ET_CHECK_MSG].  The
    bound is initialised from [numel_], converted to [size_t]. *)
Definition TensorImpl_new
    (type : ScalarType) (dim : Z) (sizes : list Z) (data : Z)
    (dim_order strides : option (list Z))
    (dynamism : TensorShapeDynamism) : option TensorImpl :=
  let numel := compute_numel sizes dim in
  if isValid type then
    Some {| sizes_ := sizes; dim_order_ := dim_order; strides_ := strides;
            data_ := data; dim_ := dim; numel_ := numel;
            numel_bound_ := to_size_t numel; type_ := type;
            shape_dynamism_ := dynamism |}
  else None.

End Constructor.

(** ** The layout converter *)

(** The product of a list of extents. *)
Definition product (l : list Z) : Z := foldr Z.mul 1 l.

(** Modelled from the spec: the validity test of [dim_order_to_stride]
    ([exec_aten/util/dim_order_util.h], absent): the first [dims] cells of
    the dim-order buffer are a permutation of [0..dims-1], that is, there
    are [dims] of them and every axis occurs among them. *)
Definition validate_dim_order (dim_order : list Z) (dims : nat) : bool :=
  let order := take dims dim_order in
  bool_decide (length order = dims) &&
  forallb (fun axis => bool_decide (Z.of_nat axis ∈ order)) (seq 0 dims).

(** Modelled from the spec: the assignment of strides.  [physical] lists
    the axes from the innermost outwards and [running] is the product of
    the extents of the axes already passed: the innermost axis gets stride
    one, every further axis the product of the extents of all
    faster-varying axes, stored at the axis' logical index. *)
Fixpoint assign_strides (sizes physical : list Z) (running : Z)
    (strides : list Z) : list Z :=
  match physical with
  | [] => strides
  | axis :: outer =>
      assign_strides sizes outer
        (running * default 0 (sizes !! Z.to_nat axis))
        (<[Z.to_nat axis := running]> strides)
  end.

(** Modelled from the spec: [dim_order_to_stride] of
    [exec_aten/util/dim_order_util.h] (absent), the layout converter
    [(sizes, dimOrder, rank) -> strides].  It rejects with [Internal] a
    dim order that is not a permutation of [0..dims-1], before it writes
    anything, and otherwise fills the strides buffer. *)
Definition dim_order_to_stride (sizes dim_order : list Z) (dims : Z)
    (strides : list Z) : Error * list Z :=
  if validate_dim_order dim_order (Z.to_nat dims) then
    (Ok,
     assign_strides sizes (reverse (take (Z.to_nat dims) dim_order)) 1 strides)
  else (Internal, strides).

(** ** Resizing *)

(** [std::equal(first1, first1 + n, first2)]; a list stands for the
    pointer to its head. *)
Fixpoint std_equal (first1 : list Z) (n : nat) (first2 : list Z) : bool :=
  match n with
  | O => true
  | S n' =>
      match first1, first2 with
      | x :: rest1, y :: rest2 => (x =? y) && std_equal rest1 n' rest2
      | _, _ => false
      end
  end.

(** [std::copy(src.begin(), src.end(), dst)]: the cells of [src]
    overwrite the head of [dst]. *)
Definition std_copy (src dst : list Z) : list Z :=
  src ++ drop (length src) dst.

(** [ET_CHECK_OR_RETURN_ERROR(cond, code, ...)]: go on when [cond] holds,
    otherwise return [code] with the descriptor as it is. *)
Definition check_or_return_error (cond : bool) (code : Error)
    (t : TensorImpl) (rest : Error * TensorImpl) : Error * TensorImpl :=
  if cond then rest else (code, t).

Definition with_strides (t : TensorImpl) (strides : list Z) : TensorImpl :=
  {| sizes_ := sizes_ t; dim_order_ := dim_order_ t;
     strides_ := Some strides; data_ := data_ t; dim_ := dim_ t;
     numel_ := numel_ t; numel_bound_ := numel_bound_ t; type_ := type_ t;
     shape_dynamism_ := shape_dynamism_ t |}.

Definition with_numel_sizes (t : TensorImpl) (numel : Z) (sizes : list Z)
    : TensorImpl :=
  {| sizes_ := sizes; dim_order_ := dim_order_ t; strides_ := strides_ t;
     data_ := data_ t; dim_ := dim_ t; numel_ := numel;
     numel_bound_ := numel_bound_ t; type_ := type_ t;
     shape_dynamism_ := shape_dynamism_ t |}.

(** The [DYNAMIC_BOUND] / [DYNAMIC_UNBOUND] case of the switch.  The
    check [new_numel <= numel_bound_] compares an [ssize_t] with a
    [size_t]: the element count is converted to [size_t] first. *)
Definition resize_dynamic (t : TensorImpl) (new_sizes : list Z)
    : Error * TensorImpl :=
  let new_numel := compute_numel new_sizes (dim_ t) in
  check_or_return_error (to_size_t new_numel <=? numel_bound_ t)
    NotSupported t
    match strides_ t with
    | None => (Internal, t)
    | Some strides =>
        match dim_order_ t with
        | None => (Internal, t)
        | Some dim_order =>
            match dim_order_to_stride new_sizes dim_order (dim_ t) strides with
            | (Ok, strides') =>
                (Ok, with_numel_sizes (with_strides t strides') new_numel
                       (std_copy new_sizes (sizes_ t)))
            | (err, strides') => (err, with_strides t strides')
            end
        end
    end.

Definition internal_resize_contiguous (t : TensorImpl) (new_sizes : list Z)
    : Error * TensorImpl :=
  check_or_return_error
    (Z.of_nat (length new_sizes) =? to_size_t (dim_ t)) NotSupported t
    (if dim_ t =? 0 then (Ok, t)
     else
       match shape_dynamism_ t with
       | STATIC =>
           check_or_return_error
             (std_equal (sizes_ t) (Z.to_nat (dim_ t)) new_sizes)
             NotSupported t (Ok, t)
       | DYNAMIC_BOUND | DYNAMIC_UNBOUND => resize_dynamic t new_sizes
       end).

(** The accessor [sizes()] of [tensor_impl.h]: the first [dim_] cells of
    the sizes buffer. *)
Definition sizes (t : TensorImpl) : list Z :=
  take (Z.to_nat (dim_ t)) (sizes_ t).

(** A descriptor over buffers of [dim_] cells each, with a rank that is a
    non-negative [ssize_t]. *)
Definition well_formed (t : TensorImpl) : Prop :=
  0 <= dim_ t <= ssize_max /\
  length (sizes_ t) = Z.to_nat (dim_ t) /\
  (forall s, strides_ t = Some s -> length s = Z.to_nat (dim_ t)) /\
  (forall d, dim_order_ t = Some d -> length d = Z.to_nat (dim_ t)).

(** The dim order is a permutation of the axes [0..dim_-1]. *)
Definition valid_dim_order (dim_order : list Z) (dims : Z) : Prop :=
  take (Z.to_nat dims) dim_order ≡ₚ Z.of_nat <$> seq 0 (Z.to_nat dims).

(** Shapes a caller may pass: any shape, or extents that are not negative
    and whose product is an [ssize_t]. *)
Definition any_shape (shape : list Z) : Prop := True.

Definition extents_fit (shape : list Z) : Prop :=
  Forall (fun extent => 0 <= extent) shape /\ product shape <= ssize_max.

Section Reachable.

Variable isValid : ScalarType -> bool.
Variable allowed : list Z -> Prop.

(** The descriptors a program can hold: built by the constructor over
    buffers of [dim] cells, then resized any number of times, with shapes
    taken from [allowed]. *)
Inductive reachable : TensorImpl -> Prop :=
  | reachable_new type dim shape data dim_order strides dynamism t :
      TensorImpl_new isValid type dim shape data dim_order strides dynamism
        = Some t ->
      well_formed t ->
      allowed shape ->
      reachable t
  | reachable_resize t new_sizes :
      reachable t ->
      allowed new_sizes ->
      reachable (internal_resize_contiguous t new_sizes).2.

End Reachable.

(** A shape that violates the policy of a descriptor of the same rank: a
    static tensor asked for other sizes, a dynamic one for more elements
    than its bound. *)
Definition violates_policy (t : TensorImpl) (new_sizes : list Z) : Prop :=
  0 < dim_ t <= ssize_max /\
  Z.of_nat (length new_sizes) = dim_ t /\
  match shape_dynamism_ t with
  | STATIC =>
      length (sizes_ t) = Z.to_nat (dim_ t) /\ new_sizes <> sizes_ t
  | DYNAMIC_BOUND | DYNAMIC_UNBOUND =>
      numel_bound_ t < compute_numel new_sizes (dim_ t)
  end.

(** A request that the checks of the resize refuse: a static tensor
    asked for other sizes, a dynamic one for an element count that, read
    as a [size_t], is past its bound. *)
Definition refused_by_policy (t : TensorImpl) (new_sizes : list Z) : Prop :=
  0 < dim_ t <= ssize_max /\
  Z.of_nat (length new_sizes) = dim_ t /\
  match shape_dynamism_ t with
  | STATIC => new_sizes <> sizes_ t
  | DYNAMIC_BOUND | DYNAMIC_UNBOUND =>
      numel_bound_ t < to_size_t (compute_numel new_sizes (dim_ t))
  end.

(** ** Concrete descriptors *)

Module Sample.

(** The worked example of the design document: rank 2, row-major, twelve
    elements, [DYNAMIC_BOUND]; then resized to [[2; 4]]. *)
Definition t0 : TensorImpl :=
  {| sizes_ := [3; 4]; dim_order_ := Some [0; 1]; strides_ := Some [4; 1];
     data_ := 4096; dim_ := 2; numel_ := 12; numel_bound_ := 12;
     type_ := 6; shape_dynamism_ := DYNAMIC_BOUND |}.

Definition t1 : TensorImpl := (internal_resize_contiguous t0 [2; 4]).2.

(** The same buffers under the [STATIC] policy. *)
Definition static_3_4 : TensorImpl :=
  {| sizes_ := [3; 4]; dim_order_ := Some [0; 1]; strides_ := Some [4; 1];
     data_ := 4096; dim_ := 2; numel_ := 12; numel_bound_ := 12;
     type_ := 6; shape_dynamism_ := STATIC |}.

(** A scalar: rank 0, no buffers. *)
Definition scalar : TensorImpl :=
  {| sizes_ := []; dim_order_ := None; strides_ := None;
     data_ := 4096; dim_ := 0; numel_ := 1; numel_bound_ := 1;
     type_ := 6; shape_dynamism_ := STATIC |}.


Definition huge : list Z := [2 ^ 30; 2 ^ 30; 16].

(** What the constructor makes of the shape [huge]. *)
Definition huge_cube : TensorImpl :=
  {| sizes_ := huge; dim_order_ := Some [0; 1; 2];
     strides_ := Some [2 ^ 34; 16; 1]; data_ := 4096; dim_ := 3; numel_ := 0;
     numel_bound_ := 0; type_ := 6; shape_dynamism_ := DYNAMIC_BOUND |}.

(** The example descriptor with a dim order that names axis 1 twice, and
    the example descriptor without a strides buffer. *)
Definition bad_order : TensorImpl :=
  {| sizes_ := [3; 4]; dim_order_ := Some [1; 1]; strides_ := Some [4; 1];
     data_ := 4096; dim_ := 2; numel_ := 12; numel_bound_ := 12;
     type_ := 6; shape_dynamism_ := DYNAMIC_UNBOUND |}.

Definition no_strides : TensorImpl :=
  {| sizes_ := [3; 4]; dim_order_ := Some [0; 1]; strides_ := None;
     data_ := 4096; dim_ := 2; numel_ := 12; numel_bound_ := 12;
     type_ := 6; shape_dynamism_ := DYNAMIC_UNBOUND |}.

(** What the constructor makes of the shape [[-1; 4]]: a negative
    element count under a bound of [2 ^ 64 - 4]. *)
Definition negative_built : TensorImpl :=
  {| sizes_ := [-1; 4]; dim_order_ := Some [0; 1]; strides_ := Some [4; 1];
     data_ := 4096; dim_ := 2; numel_ := -4; numel_bound_ := 2 ^ 64 - 4;
     type_ := 6; shape_dynamism_ := DYNAMIC_BOUND |}.

(** A type registry that knows every tag. *)
Definition every_type : ScalarType -> bool := fun _ => true.

(** A width table with four-byte elements throughout. *)
Definition four_bytes : ScalarType -> Z := fun _ => 4.

End Sample.

(** ** The delegate hooks of the event tracer *)

Module Hooks.

Section Hooks.

(** The types of [event_tracer.h]: the state of a tracer object, the
    entry that identifies a started event with its default-constructed
    value, and the C++ [double]. *)
Context {Tracer EventTracerEntry double : Type}.
Variable default_entry : EventTracerEntry.

(** The closed set of output kinds that pass the [static_assert] of
    [event_tracer_log_output_delegate]: [int], [bool], [double],
    [Tensor] and [ArrayRef<Tensor>]. *)
Inductive DelegateOutput : Type :=
  | OutInt (value : Z)
  | OutBool (value : bool)
  | OutDouble (value : double)
  | OutTensor (value : TensorImpl)
  | OutTensorList (value : list TensorImpl).

(** The virtual methods of [EventTracer] that the hooks call, as
    transitions of the tracer object.  A name is a [const char*] that may
    be null; metadata is a possibly null buffer with its length. *)
Class EventTracer : Type := {
  start_profiling_delegate :
    Tracer -> option (list Z) -> Z -> EventTracerEntry * Tracer;
  end_profiling_delegate :
    Tracer -> EventTracerEntry -> option (list Z) -> Z -> Tracer;
  log_profiling_delegate :
    Tracer -> option (list Z) -> Z -> Z -> Z -> option (list Z) -> Z -> Tracer;
  log_intermediate_output_delegate :
    Tracer -> option (list Z) -> Z -> DelegateOutput -> Tracer
}.

Context `{EventTracer}.

(** Whether the build defines the macro of the same name. *)
Variable ET_EVENT_TRACER_ENABLED : bool.

(** A tracer pointer is an address, [0] when null; the tracer objects
    that are alive are kept by address.  [event_tracer->method(...)]
    runs the method on the object the pointer refers to and updates it in
    place; through the null pointer, or a pointer to no tracer object,
    the call is undefined ([None]). *)
Definition call_method {A : Type} (event_tracer : Z)
    (method : Tracer -> A * Tracer) (tracers : gmap Z Tracer)
    : option (A * gmap Z Tracer) :=
  if event_tracer =? 0 then None
  else
    match tracers !! event_tracer with
    | Some tracer =>
        let '(result, tracer') := method tracer in
        Some (result, <[event_tracer := tracer']> tracers)
    | None => None
    end.

(** Each hook takes the tracer pointer and the tracer objects, and
    returns the objects after the call, next to its result; [None] when
    its behaviour is undefined. *)
Definition event_tracer_start_profiling_delegate
    (event_tracer : Z) (name : option (list Z)) (delegate_debug_id : Z)
    (tracers : gmap Z Tracer) : option (EventTracerEntry * gmap Z Tracer) :=
  if ET_EVENT_TRACER_ENABLED then
    if negb (event_tracer =? 0) then
      call_method event_tracer
        (fun tracer => start_profiling_delegate tracer name delegate_debug_id)
        tracers
    else Some (default_entry, tracers)
  else Some (default_entry, tracers).

Definition event_tracer_end_profiling_delegate
    (event_tracer : Z) (event_tracer_entry : EventTracerEntry)
    (metadata : option (list Z)) (metadata_len : Z)
    (tracers : gmap Z Tracer) : option (gmap Z Tracer) :=
  if ET_EVENT_TRACER_ENABLED then
    if negb (event_tracer =? 0) then
      snd <$> call_method event_tracer
                (fun tracer =>
                   (tt, end_profiling_delegate tracer event_tracer_entry
                          metadata metadata_len))
                tracers
    else Some tracers
  else Some tracers.

Definition event_tracer_log_profiling_delegate
    (event_tracer : Z) (name : option (list Z))
    (delegate_debug_id start_time end_time : Z)
    (metadata : option (list Z)) (metadata_len : Z)
    (tracers : gmap Z Tracer) : option (gmap Z Tracer) :=
  if ET_EVENT_TRACER_ENABLED then
    if negb (event_tracer =? 0) then
      snd <$> call_method event_tracer
                (fun tracer =>
                   (tt, log_profiling_delegate tracer name delegate_debug_id
                          start_time end_time metadata metadata_len))
                tracers
    else Some tracers
  else Some tracers.

Definition event_tracer_log_output_delegate
    (event_tracer : Z) (name : option (list Z)) (delegate_debug_id : Z)
    (output : DelegateOutput) (tracers : gmap Z Tracer)
    : option (gmap Z Tracer) :=
  if ET_EVENT_TRACER_ENABLED then
    if negb (event_tracer =? 0) then
      snd <$> call_method event_tracer
                (fun tracer =>
                   (tt, log_intermediate_output_delegate tracer name
                          delegate_debug_id output))
                tracers
    else Some tracers
  else Some tracers.

End Hooks.

End Hooks.

(** ** The byte-size accessors and runs of resizes *)

Section Accessors.

(** [elementSize] of [scalar_type_util.h], the width table of the type
    registry; it returns a [size_t]. *)
Variable elementSize : ScalarType -> Z.

(** [nbytes()]: [numel_] is converted to [size_t] for the product, which
    is taken modulo [2 ^ 64]. *)
Definition nbytes (t : TensorImpl) : Z :=
  to_size_t (to_size_t (numel_ t) * elementSize (type_ t)).

(** [element_size()]: the width, returned as an [ssize_t]. *)
Definition element_size (t : TensorImpl) : Z :=
  wrap_ssize (elementSize (type_ t)).

End Accessors.

(** What a caller holds after a run of resize calls, one per shape,
    whatever each call returned. *)
Definition resize_all (t : TensorImpl) (shapes : list (list Z)) : TensorImpl :=
  foldl (fun t shape => (internal_resize_contiguous t shape).2) t shapes.

(** The descriptor with another policy over the same buffers. *)
Definition with_dynamism (t : TensorImpl) (dynamism : TensorShapeDynamism)
    : TensorImpl :=
  {| sizes_ := sizes_ t; dim_order_ := dim_order_ t; strides_ := strides_ t;
     data_ := data_ t; dim_ := dim_ t; numel_ := numel_ t;
     numel_bound_ := numel_bound_ t; type_ := type_ t;
     shape_dynamism_ := dynamism |}.

(** A shape within the per-axis upper bounds [upper], no extent
    negative. *)
Definition within_upper (shape upper : list Z) : Prop :=
  Forall2 (fun extent bound => 0 <= extent <= bound) shape upper.

(** * Properties *)

(** ** The worked example of the design document *)

Module SampleRuns.
Import Sample.

Example construct_3_4 :
  TensorImpl_new every_type 6 2 [3; 4] 4096 (Some [0; 1]) (Some [4; 1])
    DYNAMIC_BOUND = Some t0.
Proof. reflexivity. Qed.

Example strides_3_4 :
  dim_order_to_stride [3; 4] [0; 1] 2 [0; 0] = (Ok, [4; 1]).
Proof. reflexivity. Qed.

Example strides_channels_last :
  dim_order_to_stride [2; 3; 4; 5] [0; 2; 3; 1] 4 [0; 0; 0; 0]
    = (Ok, [60; 1; 15; 3]).
Proof. reflexivity. Qed.

Example resize_2_4 :
  internal_resize_contiguous t0 [2; 4]
    = (Ok, with_numel_sizes t0 8 [2; 4]).
Proof. reflexivity. Qed.

Example resize_3_5_rejected :
  internal_resize_contiguous t1 [3; 5] = (NotSupported, t1).
Proof. reflexivity. Qed.

Example invalid_dim_order_rejected :
  dim_order_to_stride [3; 4] [1; 1] 2 [7; 7] = (Internal, [7; 7]).
Proof. reflexivity. Qed.

Example resize_with_invalid_dim_order :
  internal_resize_contiguous bad_order [2; 4] = (Internal, bad_order).
Proof. reflexivity. Qed.

Example resize_without_strides :
  internal_resize_contiguous no_strides [2; 4] = (Internal, no_strides).
Proof. reflexivity. Qed.

Example resize_static_same_shape :
  internal_resize_contiguous static_3_4 [3; 4] = (Ok, static_3_4).
Proof. reflexivity. Qed.

Example resize_to_the_bound :
  internal_resize_contiguous t1 [4; 3]
  = (Ok, with_numel_sizes (with_strides t1 [3; 1]) 12 [4; 3]).
Proof. reflexivity. Qed.

Example resize_negative_count_refused :
  internal_resize_contiguous t0 [-1; 4] = (NotSupported, t0).
Proof. reflexivity. Qed.

Example construct_negative_count :
  TensorImpl_new every_type 6 2 [-1; 4] 4096 (Some [0; 1]) (Some [4; 1])
    DYNAMIC_BOUND = Some negative_built.
Proof. reflexivity. Qed.

Example resize_under_wrapped_bound :
  (internal_resize_contiguous negative_built [3; 5]).1 = Ok.
Proof. reflexivity. Qed.

Example numel_wraps :
  compute_numel huge 3 = 0 /\ product huge = 2 ^ 64.
Proof. split; reflexivity. Qed.

End SampleRuns.

(** ** Machine arithmetic *)

Lemma wrap_ssize_in_range z : in_ssize (wrap_ssize z).
Proof.
  unfold in_ssize, wrap_ssize, ssize_min, ssize_max.
  pose proof (Z.mod_pos_bound (z + 2 ^ 63) (2 ^ 64)). lia.
Qed.

Lemma wrap_ssize_id z : in_ssize z -> wrap_ssize z = z.
Proof.
  unfold in_ssize, wrap_ssize, ssize_min, ssize_max. intros Hz.
  rewrite Z.mod_small; lia.
Qed.

Lemma wrap_ssize_mul_l a b : wrap_ssize (wrap_ssize a * b) = wrap_ssize (a * b).
Proof.
  unfold wrap_ssize. f_equal.
  replace ((a + 2 ^ 63) mod 2 ^ 64 - 2 ^ 63)
    with (a + (- ((a + 2 ^ 63) / 2 ^ 64)) * 2 ^ 64)
    by (pose proof (Z.div_mod (a + 2 ^ 63) (2 ^ 64)); lia).
  replace ((a + - ((a + 2 ^ 63) / 2 ^ 64) * 2 ^ 64) * b + 2 ^ 63)
    with (a * b + 2 ^ 63 + (- ((a + 2 ^ 63) / 2 ^ 64) * b) * 2 ^ 64) by ring.
  apply Z.mod_add. lia.
Qed.

Lemma to_size_t_id z : 0 <= z <= ssize_max -> to_size_t z = z.
Proof.
  unfold to_size_t, ssize_max. intros Hz. apply Z.mod_small. lia.
Qed.

(** An [ssize_t] converted to [size_t] does not get smaller; it keeps
    its value when it is not negative, and lands in the upper half of
    [size_t] when it is. *)
Lemma to_size_t_ge z : in_ssize z -> z <= to_size_t z.
Proof.
  unfold in_ssize, ssize_min, ssize_max, to_size_t. intros Hz.
  destruct (decide (0 <= z)).
  - rewrite Z.mod_small; lia.
  - pose proof (Z.mod_pos_bound z (2 ^ 64)). lia.
Qed.

Lemma to_size_t_negative z :
  in_ssize z -> z < 0 -> to_size_t z = z + 2 ^ 64 /\ ssize_max < to_size_t z.
Proof.
  unfold in_ssize, ssize_min, ssize_max, to_size_t. intros Hz Hneg.
  assert (z mod 2 ^ 64 = z + 2 ^ 64) as ->; [|lia].
  symmetry. apply (Z.mod_unique_pos _ _ (-1)); lia.
Qed.

Lemma to_size_t_within z bound :
  in_ssize z -> to_size_t z <= bound -> bound <= ssize_max ->
  0 <= z /\ to_size_t z = z.
Proof.
  intros Hz Hle Hbound. destruct (decide (0 <= z)) as [Hpos|Hneg].
  - split; [done|]. apply to_size_t_id. unfold in_ssize in Hz. lia.
  - destruct (to_size_t_negative z) as [_ ?]; [done|lia|lia].
Qed.

(** ** [compute_numel] is the product of the extents, in [ssize_t] *)

Lemma compute_numel_loop_shift x sizes i n numel :
  compute_numel_loop (x :: sizes) (S i) n numel
  = compute_numel_loop sizes i n numel.
Proof. revert i numel. induction n as [|n IH]; intros i numel; simpl; auto. Qed.

Lemma compute_numel_loop_product sizes n numel :
  (n <= length sizes)%nat ->
  wrap_ssize (compute_numel_loop sizes 0 n numel)
  = wrap_ssize (numel * product (take n sizes)).
Proof.
  revert sizes numel. induction n as [|n IH]; intros sizes numel Hn.
  - simpl. f_equal. unfold product. simpl. lia.
  - destruct sizes as [|x sizes]; simpl in Hn; [lia|].
    simpl. rewrite compute_numel_loop_shift, IH by lia.
    rewrite wrap_ssize_mul_l. f_equal. unfold product. simpl. lia.
Qed.

Lemma compute_numel_loop_in_range sizes i n numel :
  in_ssize numel -> in_ssize (compute_numel_loop sizes i n numel).
Proof.
  revert i numel. induction n as [|n IH]; intros i numel Hnumel; simpl; auto.
  apply IH, wrap_ssize_in_range.
Qed.

Lemma compute_numel_in_range sizes dim : in_ssize (compute_numel sizes dim).
Proof.
  apply compute_numel_loop_in_range.
  unfold in_ssize, ssize_min, ssize_max. lia.
Qed.

Lemma compute_numel_wrapped sizes dim :
  (Z.to_nat dim <= length sizes)%nat ->
  compute_numel sizes dim = wrap_ssize (product (take (Z.to_nat dim) sizes)).
Proof.
  intros Hdim. rewrite <- (wrap_ssize_id (compute_numel sizes dim))
    by apply compute_numel_in_range.
  unfold compute_numel. rewrite compute_numel_loop_product by done.
  f_equal. lia.
Qed.

Lemma compute_numel_exact sizes dim :
  (Z.to_nat dim <= length sizes)%nat ->
  in_ssize (product (take (Z.to_nat dim) sizes)) ->
  compute_numel sizes dim = product (take (Z.to_nat dim) sizes).
Proof.
  intros Hdim Hfit. rewrite compute_numel_wrapped by done.
  by apply wrap_ssize_id.
Qed.

Lemma compute_numel_take sizes dim rest :
  (Z.to_nat dim <= length sizes)%nat ->
  compute_numel (sizes ++ rest) dim = compute_numel sizes dim.
Proof.
  intros Hdim. rewrite !compute_numel_wrapped
    by (rewrite ?length_app; lia).
  by rewrite take_app_le.
Qed.

Lemma product_nonneg shape :
  Forall (fun extent => 0 <= extent) shape -> 0 <= product shape.
Proof.
  induction 1 as [|x shape Hx _ IH]; unfold product in *; simpl; lia.
Qed.

(** ** The layout converter *)

(** The test of the converter accepts exactly the permutations. *)
Lemma validate_dim_order_iff dim_order dims :
  validate_dim_order dim_order (Z.to_nat dims) = true
  <-> valid_dim_order dim_order dims.
Proof.
  unfold validate_dim_order, valid_dim_order.
  generalize (Z.to_nat dims) as n. intros n.
  rewrite andb_true_iff, bool_decide_eq_true, forallb_forall. split.
  - intros [Hlen Hall]. symmetry. apply submseteq_length_Permutation.
    + apply NoDup_submseteq.
      * apply (NoDup_fmap_2 _), NoDup_seq.
      * intros z [axis [-> Haxis]]%list_elem_of_fmap.
        apply list_elem_of_In, Hall in Haxis.
        by apply bool_decide_eq_true in Haxis.
    + rewrite length_fmap, length_seq. lia.
  - intros Hperm. split.
    + apply Permutation_length in Hperm.
      by rewrite length_fmap, length_seq in Hperm.
    + intros axis Haxis%list_elem_of_In. apply bool_decide_eq_true.
      rewrite Hperm. by apply list_elem_of_fmap_2.
Qed.


Lemma dim_order_to_stride_ok_valid sizes dim_order dims strides :
  (dim_order_to_stride sizes dim_order dims strides).1 = Ok ->
  valid_dim_order dim_order dims.
Proof.
  unfold dim_order_to_stride. intros Hok. apply validate_dim_order_iff.
  by destruct (validate_dim_order _ _).
Qed.

(** A rejected conversion has written nothing. *)
Lemma dim_order_to_stride_error sizes dim_order dims strides :
  (dim_order_to_stride sizes dim_order dims strides).1 <> Ok ->
  dim_order_to_stride sizes dim_order dims strides = (Internal, strides).
Proof.
  unfold dim_order_to_stride. by destruct (validate_dim_order _ _).
Qed.

Lemma assign_strides_length sizes physical running strides :
  length (assign_strides sizes physical running strides) = length strides.
Proof.
  revert running strides.
  induction physical as [|axis outer IH]; intros running strides; simpl; auto.
  by rewrite IH, length_insert.
Qed.

(** The cells that the assignment does not name keep their value. *)
Lemma assign_strides_other sizes physical running strides (i : nat) :
  i ∉ Z.to_nat <$> physical ->
  assign_strides sizes physical running strides !! i = strides !! i.
Proof.
  revert running strides.
  induction physical as [|axis outer IH]; intros running strides Hi;
    simpl; auto.
  rewrite fmap_cons in Hi. apply not_elem_of_cons in Hi as [Hne Hi].
  rewrite IH by done. by apply list_lookup_insert_ne.
Qed.

(** Two buffers of one length that agree outside the assigned cells are
    equal after the assignment: what was in the assigned cells before
    does not matter. *)
Lemma assign_strides_agree sizes physical running (s1 s2 : list Z) :
  length s1 = length s2 ->
  (forall i : nat, i ∉ Z.to_nat <$> physical -> s1 !! i = s2 !! i) ->
  assign_strides sizes physical running s1
  = assign_strides sizes physical running s2.
Proof.
  revert running s1 s2.
  induction physical as [|axis outer IH]; intros running s1 s2 Hlen Hagree.
  - simpl. apply list_eq. intros i. apply Hagree, not_elem_of_nil.
  - simpl. apply IH.
    + by rewrite !length_insert.
    + intros i Hi. destruct (decide (Z.to_nat axis = i)) as [<-|Hne].
      * destruct (decide (Z.to_nat axis < length s1)%nat).
        -- rewrite !list_lookup_insert_eq by lia. done.
        -- rewrite !list_insert_ge by lia.
           rewrite !lookup_ge_None_2 by lia. done.
      * rewrite !list_lookup_insert_ne by done. apply Hagree.
        rewrite fmap_cons. apply not_elem_of_cons. by split.
Qed.

(** Over buffers of [dims] cells and a valid dim order the assignment
    writes every cell: the result does not depend on the old strides. *)
Lemma assign_strides_deterministic sizes dim_order dims running
    (s1 s2 : list Z) :
  valid_dim_order dim_order dims ->
  length s1 = Z.to_nat dims ->
  length s2 = Z.to_nat dims ->
  assign_strides sizes (reverse (take (Z.to_nat dims) dim_order)) running s1
  = assign_strides sizes (reverse (take (Z.to_nat dims) dim_order)) running s2.
Proof.
  intros Hvalid Hlen1 Hlen2.
  apply assign_strides_agree; [congruence|].
  intros i Hi. rewrite !lookup_ge_None_2; [done| |].
  all: destruct (decide (i < Z.to_nat dims)%nat) as [Hlt|]; [|lia].
  all: exfalso; apply Hi.
  all: apply list_elem_of_fmap; exists (Z.of_nat i); split; [lia|].
  all: apply elem_of_reverse; rewrite Hvalid.
  all: apply list_elem_of_fmap_2, list_elem_of_In, in_seq; lia.
Qed.

(** Converting twice, whatever the shape in between, gives what
    converting once gives. *)
Lemma assign_strides_round_trip shape_a shape_b physical running_a running_b
    strides :
  assign_strides shape_a physical running_a
    (assign_strides shape_b physical running_b
       (assign_strides shape_a physical running_a strides))
  = assign_strides shape_a physical running_a strides.
Proof.
  rewrite (assign_strides_agree shape_a physical running_a _
             (assign_strides shape_a physical running_a strides)).
  - apply assign_strides_agree.
    + by rewrite assign_strides_length.
    + intros i Hi. by apply assign_strides_other.
  - by rewrite assign_strides_length.
  - intros i Hi. by apply assign_strides_other.
Qed.

(** ** The outcomes of a resize *)

Lemma with_strides_same t strides :
  strides_ t = Some strides -> with_strides t strides = t.
Proof. destruct t. simpl. by intros ->. Qed.

Lemma std_equal_true_iff (a b : list Z) n :
  length a = n -> length b = n -> std_equal a n b = true <-> a = b.
Proof.
  revert a b. induction n as [|n IH]; intros [|x a] [|y b] Ha Hb;
    simpl in *; try lia; [done|].
  rewrite andb_true_iff, Z.eqb_eq, IH by lia. split.
  - by intros [-> ->].
  - by intros [= -> ->].
Qed.

(** A mismatch of rank is rejected before anything else is looked at. *)
Lemma resize_rank_mismatch t new_sizes :
  Z.of_nat (length new_sizes) <> to_size_t (dim_ t) ->
  internal_resize_contiguous t new_sizes = (NotSupported, t).
Proof.
  intros Hne%Z.eqb_neq. unfold internal_resize_contiguous.
  by rewrite Hne.
Qed.

(** A scalar, or a static tensor, is never written. *)
Lemma resize_scalar_or_static t new_sizes :
  dim_ t = 0 \/ shape_dynamism_ t = STATIC ->
  (internal_resize_contiguous t new_sizes).2 = t.
Proof.
  unfold internal_resize_contiguous, check_or_return_error.
  intros [Hdim|Hstatic].
  - rewrite Hdim. by destruct (_ =? _).
  - rewrite Hstatic. by repeat destruct (_ : bool).
Qed.

(** A successful resize of a dynamic tensor of positive rank commits the
    converted strides, the new element count and the new sizes. *)
Lemma resize_dynamic_ok t new_sizes t' :
  dim_ t <> 0 ->
  shape_dynamism_ t <> STATIC ->
  internal_resize_contiguous t new_sizes = (Ok, t') ->
  exists strides dim_order,
    strides_ t = Some strides /\
    dim_order_ t = Some dim_order /\
    Z.of_nat (length new_sizes) = to_size_t (dim_ t) /\
    to_size_t (compute_numel new_sizes (dim_ t)) <= numel_bound_ t /\
    valid_dim_order dim_order (dim_ t) /\
    t' = with_numel_sizes
           (with_strides t
              (assign_strides new_sizes
                 (reverse (take (Z.to_nat (dim_ t)) dim_order)) 1 strides))
           (compute_numel new_sizes (dim_ t))
           (std_copy new_sizes (sizes_ t)).
Proof.
  intros Hdim%Z.eqb_neq Hdyn.
  unfold internal_resize_contiguous, resize_dynamic, check_or_return_error.
  rewrite Hdim.
  destruct (_ =? to_size_t _) eqn:Hlen; [|done].
  destruct (_ <=? _) eqn:Hbound;
    [|by destruct (shape_dynamism_ t)].
  destruct (strides_ t) as [strides|]; [|by destruct (shape_dynamism_ t)].
  destruct (dim_order_ t) as [dim_order|]; [|by destruct (shape_dynamism_ t)].
  unfold dim_order_to_stride.
  destruct (validate_dim_order _ _) eqn:Hvalid;
    [|by destruct (shape_dynamism_ t)].
  intros Heq. exists strides, dim_order.
  apply Z.eqb_eq in Hlen. apply Z.leb_le in Hbound.
  apply validate_dim_order_iff in Hvalid.
  repeat split; try done.
  destruct (shape_dynamism_ t); congruence.
Qed.

(** Whatever fails, fails before the first write. *)
Lemma resize_error_unchanged t new_sizes :
  (internal_resize_contiguous t new_sizes).1 <> Ok ->
  (internal_resize_contiguous t new_sizes).2 = t.
Proof.
  unfold internal_resize_contiguous, resize_dynamic, check_or_return_error.
  destruct (_ =? to_size_t _); [|done].
  destruct (_ =? 0); [done|].
  assert (forall r : Error * TensorImpl,
    r = (if to_size_t (compute_numel new_sizes (dim_ t)) <=? numel_bound_ t
         then
           match strides_ t with
           | Some strides =>
               match dim_order_ t with
               | Some dim_order =>
                   match dim_order_to_stride new_sizes dim_order (dim_ t)
                           strides with
                   | (Ok, strides') =>
                       (Ok, with_numel_sizes (with_strides t strides')
                              (compute_numel new_sizes (dim_ t))
                              (std_copy new_sizes (sizes_ t)))
                   | (err, strides') => (err, with_strides t strides')
                   end
               | None => (Internal, t)
               end
           | None => (Internal, t)
           end
         else (NotSupported, t)) ->
    r.1 <> Ok -> r.2 = t) as Hdynamic.
  { intros r -> Hr. destruct (_ <=? _); [|done].
    destruct (strides_ t) as [strides|] eqn:Hstrides; [|done].
    destruct (dim_order_ t) as [dim_order|]; [|done].
    destruct (decide ((dim_order_to_stride new_sizes dim_order (dim_ t)
                         strides).1 = Ok)) as [Hok|Herr].
    - destruct (dim_order_to_stride _ _ _ _) as [[] ?]; simpl in *; done.
    - rewrite (dim_order_to_stride_error _ _ _ _ Herr). simpl.
      by apply with_strides_same. }
  destruct (shape_dynamism_ t); [|by apply Hdynamic..].
  by destruct (std_equal _ _ _).
Qed.

(** A resize writes the strides, the element count and the sizes only. *)
Lemma resize_frame t new_sizes :
  let t' := (internal_resize_contiguous t new_sizes).2 in
  dim_ t' = dim_ t /\ numel_bound_ t' = numel_bound_ t /\
  type_ t' = type_ t /\ data_ t' = data_ t /\
  dim_order_ t' = dim_order_ t /\ shape_dynamism_ t' = shape_dynamism_ t.
Proof.
  unfold internal_resize_contiguous, resize_dynamic, check_or_return_error.
  destruct (_ =? to_size_t _); [|done].
  destruct (_ =? 0); [done|].
  destruct (shape_dynamism_ t) eqn:Hdyn;
    [by destruct (std_equal _ _ _)|..].
  all: destruct (_ <=? _); [|done].
  all: destruct (strides_ t) as [strides|] eqn:Hstrides; [|done].
  all: destruct (dim_order_ t) as [dim_order|] eqn:Horder; [|done].
  all: by destruct (dim_order_to_stride _ _ _ _) as [[] ?].
Qed.

(** Either nothing was written, or the resize is a successful one of a
    dynamic tensor of positive rank. *)
Lemma resize_cases t new_sizes :
  (internal_resize_contiguous t new_sizes).2 = t \/
  (dim_ t <> 0 /\ shape_dynamism_ t <> STATIC /\
   internal_resize_contiguous t new_sizes
   = (Ok, (internal_resize_contiguous t new_sizes).2)).
Proof.
  destruct (decide (dim_ t = 0)) as [Hdim|Hdim];
    [left; apply resize_scalar_or_static; by left|].
  destruct (decide (shape_dynamism_ t = STATIC)) as [Hdyn|Hdyn];
    [left; apply resize_scalar_or_static; by right|].
  destruct (decide ((internal_resize_contiguous t new_sizes).1 = Ok))
    as [Hok|Herr]; [|left; by apply resize_error_unchanged].
  right. repeat split; try done.
  rewrite <- Hok at 1. apply surjective_pairing.
Qed.

(** ** Invariants of the reachable descriptors *)

Lemma std_copy_length src dst :
  length src = length dst -> length (std_copy src dst) = length dst.
Proof.
  intros Hlen. unfold std_copy. rewrite length_app, length_drop. lia.
Qed.

Lemma resize_well_formed t new_sizes :
  well_formed t -> well_formed (internal_resize_contiguous t new_sizes).2.
Proof.
  intros (Hrank & Hsizes & Hstrides & Horder).
  destruct (resize_cases t new_sizes) as [->|(Hdim & Hdyn & Hok)];
    [done|].
  apply resize_dynamic_ok in Hok
    as (strides & dim_order & Hs & Hd & Hlen & _ & _ & ->); try done.
  rewrite to_size_t_id in Hlen by done.
  repeat split; simpl; try lia.
  - rewrite std_copy_length; lia.
  - intros s [= <-]. rewrite assign_strides_length. by apply Hstrides.
  - done.
Qed.

(** The element count is the one [compute_numel] gives for the sizes
    buffer. *)
Lemma resize_numel_synced t new_sizes :
  well_formed t ->
  numel_ t = compute_numel (sizes_ t) (dim_ t) ->
  let t' := (internal_resize_contiguous t new_sizes).2 in
  numel_ t' = compute_numel (sizes_ t') (dim_ t').
Proof.
  intros (Hrank & _) Hnumel.
  destruct (resize_cases t new_sizes) as [->|(Hdim & Hdyn & Hok)];
    [done|].
  apply resize_dynamic_ok in Hok
    as (strides & dim_order & _ & _ & Hlen & _ & _ & ->); try done.
  rewrite to_size_t_id in Hlen by done.
  simpl. unfold std_copy. rewrite compute_numel_take; [done|lia].
Qed.

(** The element count never passes the bound. *)
Lemma resize_numel_le_bound t new_sizes :
  numel_ t <= numel_bound_ t ->
  let t' := (internal_resize_contiguous t new_sizes).2 in
  numel_ t' <= numel_bound_ t'.
Proof.
  intros Hnumel.
  destruct (resize_cases t new_sizes) as [->|(Hdim & Hdyn & Hok)];
    [done|].
  apply resize_dynamic_ok in Hok
    as (strides & dim_order & _ & _ & _ & Hbound & _ & ->); try done.
  simpl. pose proof (to_size_t_ge _ (compute_numel_in_range new_sizes (dim_ t))).
  lia.
Qed.

(** Nor does it, read as a [size_t]. *)
Lemma resize_numel_size_t_le_bound t new_sizes :
  to_size_t (numel_ t) <= numel_bound_ t ->
  let t' := (internal_resize_contiguous t new_sizes).2 in
  to_size_t (numel_ t') <= numel_bound_ t'.
Proof.
  intros Hnumel.
  destruct (resize_cases t new_sizes) as [->|(Hdim & Hdyn & Hok)];
    [done|].
  by apply resize_dynamic_ok in Hok
    as (strides & dim_order & _ & _ & _ & Hbound & _ & ->).
Qed.

Lemma compute_numel_extents_fit shape dim :
  Z.of_nat (length shape) = dim ->
  extents_fit shape ->
  compute_numel shape dim = product shape /\ 0 <= product shape.
Proof.
  intros Hlen [Hnonneg Hfit].
  pose proof (product_nonneg _ Hnonneg) as Hprod.
  rewrite compute_numel_exact; rewrite ?firstn_all2 by lia;
    [done|lia|].
  unfold in_ssize, ssize_min. lia.
Qed.

(** It stays non-negative as long as the new extents are non-negative
    and their product is an [ssize_t]. *)
Lemma resize_numel_nonneg t new_sizes :
  0 <= dim_ t <= ssize_max ->
  extents_fit new_sizes ->
  0 <= numel_ t ->
  0 <= numel_ (internal_resize_contiguous t new_sizes).2.
Proof.
  intros Hrank Hfit Hnumel.
  destruct (resize_cases t new_sizes) as [->|(Hdim & Hdyn & Hok)];
    [done|].
  apply resize_dynamic_ok in Hok
    as (strides & dim_order & _ & _ & Hlen & _ & _ & ->); try done.
  rewrite to_size_t_id in Hlen by done.
  simpl. destruct (compute_numel_extents_fit _ _ Hlen Hfit) as [-> ?]. done.
Qed.

Section ReachableInvariant.

Variable isValid : ScalarType -> bool.
Variable allowed : list Z -> Prop.

Lemma reachable_invariant t :
  reachable isValid allowed t ->
  well_formed t /\
  numel_ t = compute_numel (sizes_ t) (dim_ t) /\
  numel_ t <= numel_bound_ t /\
  ((forall shape, allowed shape -> extents_fit shape) -> 0 <= numel_ t).
Proof.
  induction 1 as [type dim shape data dim_order strides dynamism t Hnew Hwf
                    Hshape
                 |t new_sizes _ (Hwf & Hsync & Hbound & Hnonneg) Hshape].
  - unfold TensorImpl_new in Hnew. destruct (isValid type); [|done].
    injection Hnew as <-.
    split_and!;
      [done|done|simpl; apply to_size_t_ge, compute_numel_in_range|].
    intros Hfit. destruct Hwf as (Hrank & Hlen & _). simpl in *.
    destruct (compute_numel_extents_fit shape dim) as [-> ?]; auto. lia.
  - split_and!.
    + by apply resize_well_formed.
    + by apply resize_numel_synced.
    + by apply resize_numel_le_bound.
    + intros Hfit. apply resize_numel_nonneg; auto. apply Hwf.
Qed.

Lemma reachable_size_t_bound t :
  reachable isValid allowed t -> to_size_t (numel_ t) <= numel_bound_ t.
Proof.
  induction 1 as [type dim shape data dim_order strides dynamism t Hnew _ _
                 |t new_sizes _ IH _].
  - unfold TensorImpl_new in Hnew. destruct (isValid type); [|done].
    injection Hnew as <-. simpl. lia.
  - by apply resize_numel_size_t_le_bound.
Qed.

End ReachableInvariant.


(** ** The claims *)




(** C2.  A resize that fails, at whichever check, leaves the sizes, the
    strides and the element count as they were. *)
Theorem failed_resize_writes_nothing t new_sizes :
  (internal_resize_contiguous t new_sizes).1 <> Ok ->
  let t' := (internal_resize_contiguous t new_sizes).2 in
  sizes_ t' = sizes_ t /\ strides_ t' = strides_ t /\ numel_ t' = numel_ t.
Proof.
  intros Herr. simpl. by rewrite resize_error_unchanged.
Qed.

Lemma failed_resize_writes_nothing_witness :
  (internal_resize_contiguous Sample.t1 [3; 5]).1 <> Ok /\
  sizes_ (internal_resize_contiguous Sample.t1 [3; 5]).2 = [2; 4] /\
  strides_ (internal_resize_contiguous Sample.t1 [3; 5]).2 = Some [4; 1] /\
  numel_ (internal_resize_contiguous Sample.t1 [3; 5]).2 = 8.
Proof.
  assert ((internal_resize_contiguous Sample.t1 [3; 5]).1 <> Ok) as Herr
    by done.
  split; [done|].
  apply (failed_resize_writes_nothing Sample.t1 [3; 5] Herr).
Defined.

(** C3, as amended.  A resize whose [new_sizes] has a length other than
    the rank fails with [NotSupported] and writes nothing; [NotSupported]
    is also the code that every violation of a policy returns, so the two
    failures are told apart by the logged message only. *)
Theorem rank_mismatch_not_supported t new_sizes :
  0 <= dim_ t <= ssize_max ->
  Z.of_nat (length new_sizes) <> dim_ t ->
  internal_resize_contiguous t new_sizes = (NotSupported, t) /\
  (forall u shape,
     violates_policy u shape ->
     (internal_resize_contiguous u shape).1
     = (internal_resize_contiguous t new_sizes).1).
Proof.
  intros Hrank Hlen.
  assert (internal_resize_contiguous t new_sizes = (NotSupported, t)) as ->.
  { apply resize_rank_mismatch. by rewrite to_size_t_id. }
  split; [done|]. intros u shape (Hu & Hshape & Hpolicy). simpl.
  unfold internal_resize_contiguous, resize_dynamic, check_or_return_error.
  rewrite to_size_t_id, Hshape, Z.eqb_refl by lia.
  destruct (dim_ u =? 0) eqn:Hdim; [lia|].
  destruct (shape_dynamism_ u).
  - destruct Hpolicy as [Hsizes Hne].
    destruct (std_equal _ _ _) eqn:Hequal; [|done].
    apply std_equal_true_iff in Hequal; [congruence|done|lia].
  - pose proof (to_size_t_ge _ (compute_numel_in_range shape (dim_ u))).
    by destruct (Z.leb_spec (to_size_t (compute_numel shape (dim_ u)))
                   (numel_bound_ u)); [lia|].
  - pose proof (to_size_t_ge _ (compute_numel_in_range shape (dim_ u))).
    by destruct (Z.leb_spec (to_size_t (compute_numel shape (dim_ u)))
                   (numel_bound_ u)); [lia|].
Qed.

Lemma rank_mismatch_not_supported_witness :
  0 <= dim_ Sample.static_3_4 <= ssize_max /\
  Z.of_nat (length [3]) <> dim_ Sample.static_3_4 /\
  internal_resize_contiguous Sample.static_3_4 [3]
  = (NotSupported, Sample.static_3_4) /\
  (forall u shape,
     violates_policy u shape ->
     (internal_resize_contiguous u shape).1
     = (internal_resize_contiguous Sample.static_3_4 [3]).1).
Proof.
  split; [done|]. split; [done|].
  apply (rank_mismatch_not_supported Sample.static_3_4 [3]); done.
Defined.

(** C3 as stated fails: the code that a mismatch of rank returns is the
    code that a violated policy returns, under the static policy and
    under the dynamic one. *)
Lemma rank_mismatch_code_not_distinct :
  Z.of_nat (length [3]) <> dim_ Sample.static_3_4 /\
  violates_policy Sample.static_3_4 [3; 5] /\
  violates_policy Sample.t0 [3; 5] /\
  (internal_resize_contiguous Sample.static_3_4 [3]).1
  = (internal_resize_contiguous Sample.static_3_4 [3; 5]).1 /\
  (internal_resize_contiguous Sample.t0 [3]).1
  = (internal_resize_contiguous Sample.t0 [3; 5]).1.
Proof. by split_and!. Qed.

(** With a bound that is an [ssize_t], a resize keeps the element count
    between zero and the bound: a negative count, read as a [size_t], is
    past every such bound. *)
Lemma resize_numel_in_bound t new_sizes :
  0 <= numel_ t <= numel_bound_ t /\ numel_bound_ t <= ssize_max ->
  let t' := (internal_resize_contiguous t new_sizes).2 in
  0 <= numel_ t' <= numel_bound_ t' /\ numel_bound_ t' <= ssize_max.
Proof.
  intros [Hnumel Hbound].
  destruct (resize_cases t new_sizes) as [->|(Hdim & Hdyn & Hok)];
    [done|].
  apply resize_dynamic_ok in Hok
    as (strides & dim_order & _ & _ & _ & Hle & _ & ->); try done.
  simpl.
  destruct (to_size_t_within _ _ (compute_numel_in_range new_sizes (dim_ t))
              Hle Hbound) as [? Heq].
  rewrite Heq in Hle. done.
Qed.

(** What every resize keeps, a run of resizes keeps. *)
Lemma resize_all_invariant (inv : TensorImpl -> Prop) t shapes :
  (forall u new_sizes,
     inv u -> inv (internal_resize_contiguous u new_sizes).2) ->
  inv t -> inv (resize_all t shapes).
Proof.
  intros Hstep. revert t. unfold resize_all.
  induction shapes as [|shape shapes IH]; intros t Ht; [done|].
  simpl. by apply IH, Hstep.
Qed.

Section ReachableClaims.

Variable isValid : ScalarType -> bool.
Variable allowed : list Z -> Prop.

(** C4, as amended.  After construction and after every resize, the
    element count is the product of the current sizes (the empty product
    being one), provided that product is an [ssize_t]. *)
Theorem numel_is_product t :
  reachable isValid allowed t ->
  in_ssize (product (sizes t)) ->
  numel_ t = product (sizes t).
Proof.
  intros (Hwf & Hsync & _)%reachable_invariant Hfit.
  destruct Hwf as (_ & Hlen & _).
  rewrite Hsync. apply compute_numel_exact; [lia|done].
Qed.

(** C6, as amended.  After construction and after any run of resizes,
    whatever shapes they ask for and whatever they return, the element
    count is at most the bound; it is not negative either, provided the
    element count that the constructor computed from its sizes is not
    negative. *)
Theorem numel_within_bound type dim shape data dim_order strides dynamism t
    shapes :
  TensorImpl_new isValid type dim shape data dim_order strides dynamism
    = Some t ->
  numel_ (resize_all t shapes) <= numel_bound_ (resize_all t shapes) /\
  (0 <= compute_numel shape dim ->
   0 <= numel_ (resize_all t shapes) <= numel_bound_ (resize_all t shapes)).
Proof.
  intros Hnew. unfold TensorImpl_new in Hnew.
  destruct (isValid type); [|done]. injection Hnew as <-.
  pose proof (compute_numel_in_range shape dim) as Hrange.
  split.
  - apply (resize_all_invariant (fun t => numel_ t <= numel_bound_ t)).
    + intros u new_sizes. apply resize_numel_le_bound.
    + simpl. by apply to_size_t_ge.
  - intros Hnonneg.
    apply (resize_all_invariant
             (fun t => 0 <= numel_ t <= numel_bound_ t
                       /\ numel_bound_ t <= ssize_max)).
    + intros u new_sizes. apply resize_numel_in_bound.
    + simpl. rewrite to_size_t_id; unfold in_ssize in Hrange; lia.
Qed.

End ReachableClaims.

(** The descriptors of the worked example are reachable. *)
Lemma example_t0_well_formed : well_formed Sample.t0.
Proof.
  split_and!; simpl; try done; intros ? [= <-]; done.
Qed.

Lemma example_t0_reachable (allowed : list Z -> Prop) :
  allowed [3; 4] -> reachable Sample.every_type allowed Sample.t0.
Proof.
  intros Hshape.
  apply (reachable_new _ _ 6 2 [3; 4] 4096 (Some [0; 1]) (Some [4; 1])
           DYNAMIC_BOUND); [done|apply example_t0_well_formed|done].
Qed.

Lemma example_t1_reachable (allowed : list Z -> Prop) :
  allowed [3; 4] -> allowed [2; 4] ->
  reachable Sample.every_type allowed Sample.t1.
Proof.
  intros Hshape0 Hshape1. unfold Sample.t1.
  apply reachable_resize; [by apply example_t0_reachable|done].
Qed.

Lemma extents_fit_3_4 : extents_fit [3; 4].
Proof. split; [by repeat constructor|by vm_compute]. Qed.

Lemma extents_fit_2_4 : extents_fit [2; 4].
Proof. split; [by repeat constructor|by vm_compute]. Qed.

Lemma numel_is_product_witness :
  reachable Sample.every_type any_shape Sample.t1 /\
  in_ssize (product (sizes Sample.t1)) /\
  numel_ Sample.t1 = product (sizes Sample.t1).
Proof.
  assert (reachable Sample.every_type any_shape Sample.t1) as Hreach
    by (by apply example_t1_reachable).
  assert (in_ssize (product (sizes Sample.t1))) as Hfit by (by vm_compute).
  split; [done|]. split; [done|].
  apply (numel_is_product Sample.every_type any_shape Sample.t1 Hreach Hfit).
Defined.

(** C4 as stated fails where the product leaves [ssize_t]: built over
    the extents [2^30, 2^30, 16] the descriptor counts no element, and the
    product of its sizes is [2^64]. *)
Lemma numel_overflow_not_product :
  TensorImpl_new Sample.every_type 6 3 Sample.huge 4096 (Some [0; 1; 2])
    (Some [2 ^ 34; 16; 1]) DYNAMIC_BOUND = Some Sample.huge_cube /\
  reachable Sample.every_type any_shape Sample.huge_cube /\
  Forall in_int32 Sample.huge /\
  numel_ Sample.huge_cube = 0 /\
  product (sizes Sample.huge_cube) = 2 ^ 64 /\
  numel_ Sample.huge_cube <> product (sizes Sample.huge_cube).
Proof.
  assert (well_formed Sample.huge_cube) as Hwf
    by (split_and!; simpl; try done; intros ? [= <-]; done).
  split_and!; try done.
  - by apply (reachable_new _ _ 6 3 Sample.huge 4096 (Some [0; 1; 2])
                (Some [2 ^ 34; 16; 1]) DYNAMIC_BOUND).
  - repeat constructor; by vm_compute.
Qed.

Lemma numel_within_bound_witness :
  TensorImpl_new Sample.every_type 6 2 [3; 4] 4096 (Some [0; 1])
    (Some [4; 1]) DYNAMIC_BOUND = Some Sample.t0 /\
  numel_ (resize_all Sample.t0 [[2; 4]; [-1; 4]; [3; 5]])
  <= numel_bound_ (resize_all Sample.t0 [[2; 4]; [-1; 4]; [3; 5]]) /\
  (0 <= compute_numel [3; 4] 2 ->
   0 <= numel_ (resize_all Sample.t0 [[2; 4]; [-1; 4]; [3; 5]])
   <= numel_bound_ (resize_all Sample.t0 [[2; 4]; [-1; 4]; [3; 5]])).
Proof.
  split; [done|].
  apply (numel_within_bound Sample.every_type 6 2 [3; 4] 4096 (Some [0; 1])
           (Some [4; 1]) DYNAMIC_BOUND Sample.t0
           [[2; 4]; [-1; 4]; [3; 5]]).
  done.
Defined.

(** C6 as stated fails at construction: built over the extents [-1, 4]
    the descriptor counts [-4] elements, under a bound of [2^64 - 4]. *)
Lemma numel_negative_at_construction :
  TensorImpl_new Sample.every_type 6 2 [-1; 4] 4096 (Some [0; 1])
    (Some [4; 1]) DYNAMIC_BOUND = Some Sample.negative_built /\
  well_formed Sample.negative_built /\
  Forall in_int32 [-1; 4] /\
  numel_ Sample.negative_built = -4 /\
  ~ (0 <= numel_ Sample.negative_built
     <= numel_bound_ Sample.negative_built).
Proof.
  split_and!; try done.
  - split_and!; simpl; try done; intros ? [= <-]; done.
  - repeat constructor; by vm_compute.
  - by intros [Hneg _].
Qed.

Lemma sizes_well_formed t : well_formed t -> sizes t = sizes_ t.
Proof. intros (_ & Hlen & _). unfold sizes. apply firstn_all2. lia. Qed.

(** C5.  Under [STATIC], at positive rank, a resize to the current sizes
    succeeds and writes nothing, the strides included; a resize to any
    other shape of the same rank fails with [NotSupported]. *)
Theorem static_resize_validates_only t new_sizes :
  shape_dynamism_ t = STATIC ->
  0 < dim_ t ->
  well_formed t ->
  Z.of_nat (length new_sizes) = dim_ t ->
  (new_sizes = sizes t ->
   internal_resize_contiguous t new_sizes = (Ok, t)) /\
  (new_sizes <> sizes t ->
   internal_resize_contiguous t new_sizes = (NotSupported, t)).
Proof.
  intros Hstatic Hdim Hwf Hlen. rewrite (sizes_well_formed _ Hwf).
  destruct Hwf as (Hrank & Hsizes & _).
  unfold internal_resize_contiguous, check_or_return_error.
  rewrite to_size_t_id, Hlen, Z.eqb_refl, Hstatic by lia.
  destruct (dim_ t =? 0) eqn:Hzero; [lia|].
  destruct (std_equal _ _ _) eqn:Hequal.
  - apply std_equal_true_iff in Hequal; [|done|lia]. by split.
  - split; [|done]. intros ->.
    apply not_true_iff_false in Hequal. destruct Hequal.
    apply std_equal_true_iff; done.
Qed.

Lemma static_resize_validates_only_witness :
  shape_dynamism_ Sample.static_3_4 = STATIC /\
  0 < dim_ Sample.static_3_4 /\
  well_formed Sample.static_3_4 /\
  Z.of_nat (length [4; 3]) = dim_ Sample.static_3_4 /\
  ([4; 3] = sizes Sample.static_3_4 ->
   internal_resize_contiguous Sample.static_3_4 [4; 3]
   = (Ok, Sample.static_3_4)) /\
  ([4; 3] <> sizes Sample.static_3_4 ->
   internal_resize_contiguous Sample.static_3_4 [4; 3]
   = (NotSupported, Sample.static_3_4)).
Proof.
  assert (well_formed Sample.static_3_4) as Hwf
    by (split_and!; simpl; try done; intros ? [= <-]; done).
  split; [done|]. split; [done|]. split; [done|]. split; [done|].
  apply (static_resize_validates_only Sample.static_3_4 [4; 3]); done.
Defined.

(** C7.  At rank 0 a resize to the empty shape succeeds under every
    policy and writes nothing. *)
Theorem scalar_resize_trivial t new_sizes :
  dim_ t = 0 ->
  length new_sizes = 0%nat ->
  internal_resize_contiguous t new_sizes = (Ok, t).
Proof.
  intros Hdim Hlen. unfold internal_resize_contiguous, check_or_return_error.
  by rewrite Hdim, Hlen.
Qed.

Lemma scalar_resize_trivial_witness :
  dim_ Sample.scalar = 0 /\
  length (@nil Z) = 0%nat /\
  internal_resize_contiguous Sample.scalar [] = (Ok, Sample.scalar).
Proof.
  split; [done|]. split; [done|].
  apply (scalar_resize_trivial Sample.scalar []); done.
Defined.

(** The strides that a successful resize leaves. *)
Lemma resize_ok_strides t new_sizes t' :
  internal_resize_contiguous t new_sizes = (Ok, t') ->
  dim_ t' = dim_ t /\ dim_order_ t' = dim_order_ t /\
  shape_dynamism_ t' = shape_dynamism_ t /\
  ((dim_ t = 0 \/ shape_dynamism_ t = STATIC) /\ strides_ t' = strides_ t \/
   (dim_ t <> 0 /\ shape_dynamism_ t <> STATIC) /\
   exists strides dim_order,
     strides_ t = Some strides /\ dim_order_ t = Some dim_order /\
     valid_dim_order dim_order (dim_ t) /\
     strides_ t'
     = Some (assign_strides new_sizes
               (reverse (take (Z.to_nat (dim_ t)) dim_order)) 1 strides)).
Proof.
  intros Hok. pose proof (resize_frame t new_sizes) as Hframe.
  rewrite Hok in Hframe. simpl in Hframe.
  destruct Hframe as (Hdim & _ & _ & _ & Horder & Hdyn).
  split_and!; try done.
  destruct (decide (dim_ t = 0)) as [Hzero|Hzero].
  { left. split; [by left|].
    pose proof (resize_scalar_or_static t new_sizes (or_introl Hzero)) as Hsame.
    rewrite Hok in Hsame. simpl in Hsame. by subst. }
  destruct (decide (shape_dynamism_ t = STATIC)) as [Hstatic|Hstatic].
  { left. split; [by right|].
    pose proof (resize_scalar_or_static t new_sizes (or_intror Hstatic))
      as Hsame.
    rewrite Hok in Hsame. simpl in Hsame. by subst. }
  right. split; [done|].
  apply resize_dynamic_ok in Hok
    as (strides & dim_order & Hs & Hd & _ & _ & Hvalid & ->); try done.
  by exists strides, dim_order.
Qed.

(** C8.  If the resizes to [shape_a], to [shape_b] and to [shape_a]
    again all succeed, the strides after the third are the strides after
    the first.  What a dynamic descriptor of positive rank over buffers
    of [dim_] cells gets as strides depends on the new sizes and on the
    dim order only: any other such descriptor with the same dim order
    gets the same strides for [shape_a]. *)
Theorem resize_round_trip_strides t shape_a shape_b t1 t2 t3 :
  internal_resize_contiguous t shape_a = (Ok, t1) ->
  internal_resize_contiguous t1 shape_b = (Ok, t2) ->
  internal_resize_contiguous t2 shape_a = (Ok, t3) ->
  strides_ t3 = strides_ t1 /\
  (forall u u1,
     shape_dynamism_ t <> STATIC -> shape_dynamism_ u <> STATIC ->
     0 < dim_ t ->
     well_formed t -> well_formed u ->
     dim_ u = dim_ t -> dim_order_ u = dim_order_ t ->
     internal_resize_contiguous u shape_a = (Ok, u1) ->
     strides_ u1 = strides_ t1).
Proof.
  intros (Hdim1 & Horder1 & Hdyn1 & Hcase1)%resize_ok_strides
         (Hdim2 & Horder2 & Hdyn2 & Hcase2)%resize_ok_strides
         (Hdim3 & Horder3 & Hdyn3 & Hcase3)%resize_ok_strides.
  rewrite Hdim2, Hdim1, Horder2, Horder1, Hdyn2, Hdyn1 in Hcase3.
  rewrite Hdim1, Horder1, Hdyn1 in Hcase2.
  split.
  - destruct Hcase1
      as [[Hstill Hs1]|[[Hzero Hdyn] (s & d & Hs & Hd & _ & Hs1)]].
    + destruct Hcase2 as [[_ Hs2]|[[? ?] _]]; [|by destruct Hstill].
      destruct Hcase3 as [[_ Hs3]|[[? ?] _]]; [|by destruct Hstill].
      congruence.
    + destruct Hcase2 as [[[?|?] _]|[_ (s1 & d1 & Hs1' & Hd1 & _ & Hs2)]];
        [done..|].
      destruct Hcase3 as [[[?|?] _]|[_ (s2 & d2 & Hs2' & Hd2 & _ & Hs3)]];
        [done..|].
      rewrite Hs3, Hs1. f_equal.
      assert (d1 = d) as -> by congruence.
      assert (d2 = d) as -> by congruence.
      assert (s2 = assign_strides shape_b
                     (reverse (take (Z.to_nat (dim_ t)) d)) 1 s1) as ->
        by congruence.
      assert (s1 = assign_strides shape_a
                     (reverse (take (Z.to_nat (dim_ t)) d)) 1 s) as ->
        by congruence.
      apply assign_strides_round_trip.
  - intros u u1 Hdyn Hdynu Hpos Hwf Hwfu Hdimu Horderu
           (_ & _ & _ & Hcaseu)%resize_ok_strides.
    destruct Hcase1 as [[[?|?] _]|[_ (s & d & Hs & Hd & Hvalid & Hs1)]];
      [lia|done|].
    rewrite Hdimu, Horderu in Hcaseu.
    destruct Hcaseu as [[[?|?] _]|[_ (su & du & Hsu & Hdu & _ & Hsu1)]];
      [lia|done|].
    rewrite Hsu1, Hs1. f_equal.
    assert (du = d) as -> by congruence.
    apply (assign_strides_deterministic _ _ _ _ _ _ Hvalid).
    + destruct Hwfu as (_ & _ & Hlen & _). rewrite <- Hdimu. by apply Hlen.
    + destruct Hwf as (_ & _ & Hlen & _). by apply Hlen.
Qed.

Lemma resize_round_trip_strides_witness :
  internal_resize_contiguous Sample.t0 [2; 4] = (Ok, Sample.t1) /\
  internal_resize_contiguous Sample.t1 [4; 3]
  = (Ok, with_numel_sizes (with_strides Sample.t1 [3; 1]) 12 [4; 3]) /\
  internal_resize_contiguous
    (with_numel_sizes (with_strides Sample.t1 [3; 1]) 12 [4; 3]) [2; 4]
  = (Ok, Sample.t1) /\
  strides_ Sample.t1 = strides_ Sample.t1 /\
  (forall u u1,
     shape_dynamism_ Sample.t0 <> STATIC -> shape_dynamism_ u <> STATIC ->
     0 < dim_ Sample.t0 ->
     well_formed Sample.t0 -> well_formed u ->
     dim_ u = dim_ Sample.t0 -> dim_order_ u = dim_order_ Sample.t0 ->
     internal_resize_contiguous u [2; 4] = (Ok, u1) ->
     strides_ u1 = strides_ Sample.t1).
Proof.
  split; [done|]. split; [done|]. split; [done|].
  apply (resize_round_trip_strides Sample.t0 [2; 4] [4; 3] Sample.t1
           (with_numel_sizes (with_strides Sample.t1 [3; 1]) 12 [4; 3])
           Sample.t1); done.
Defined.

(** C10.  Whatever the policy, the input and the outcome, a resize
    leaves the rank, the bound, the element type, the data pointer, the
    dim-order buffer and the policy as they were. *)
Theorem resize_writes_sizes_strides_numel_only t new_sizes :
  let t' := (internal_resize_contiguous t new_sizes).2 in
  dim_ t' = dim_ t /\ numel_bound_ t' = numel_bound_ t /\
  type_ t' = type_ t /\ data_ t' = data_ t /\
  dim_order_ t' = dim_order_ t /\ shape_dynamism_ t' = shape_dynamism_ t.
Proof. apply resize_frame. Qed.

(** A call through the null pointer is undefined, and so is a call
    through a pointer to no tracer object: a hook that called a method
    without looking at its pointer would have no defined behaviour
    there. *)
Lemma call_method_null {Tracer A : Type} (method : Tracer -> A * Tracer)
    (tracers : gmap Z Tracer) :
  Hooks.call_method 0 method tracers = None.
Proof. done. Qed.

Lemma call_method_dangling {Tracer A : Type} (event_tracer : Z)
    (method : Tracer -> A * Tracer) (tracers : gmap Z Tracer) :
  tracers !! event_tracer = None ->
  Hooks.call_method event_tracer method tracers = None.
Proof.
  intros Hnone. unfold Hooks.call_method. rewrite Hnone.
  by destruct (event_tracer =? 0).
Qed.

(** In a build with tracing, through a pointer to a tracer object, the
    start hook is the method of that object: it returns the entry of the
    method and leaves the object as the method leaves it. *)
Lemma enabled_start_hook_calls_tracer
    {Tracer EventTracerEntry double : Type} (default_entry : EventTracerEntry)
    (methods : Hooks.EventTracer (Tracer := Tracer)
                 (EventTracerEntry := EventTracerEntry) (double := double))
    (event_tracer : Z) (tracer : Tracer) (name : option (list Z))
    (delegate_debug_id : Z) (tracers : gmap Z Tracer) :
  event_tracer <> 0 ->
  tracers !! event_tracer = Some tracer ->
  Hooks.event_tracer_start_profiling_delegate default_entry true event_tracer
    name delegate_debug_id tracers
  = Some ((Hooks.start_profiling_delegate tracer name delegate_debug_id).1,
          <[event_tracer :=
              (Hooks.start_profiling_delegate tracer name
                 delegate_debug_id).2]> tracers).
Proof.
  intros Hlive%Z.eqb_neq Htracer.
  unfold Hooks.event_tracer_start_profiling_delegate, Hooks.call_method.
  rewrite Hlive, Htracer. simpl.
  by destruct (Hooks.start_profiling_delegate _ _ _).
Qed.

(** C9.  With a null tracer every delegate hook is defined, calls no
    method and leaves every tracer object as it is, whatever the other
    arguments and whether or not the build enables tracing; the start
    hook then returns the default-constructed entry. *)
Theorem null_tracer_hooks_do_nothing
    {Tracer EventTracerEntry double : Type} (default_entry : EventTracerEntry)
    (methods : Hooks.EventTracer (Tracer := Tracer)
                 (EventTracerEntry := EventTracerEntry) (double := double))
    (enabled : bool) (name : option (list Z))
    (delegate_debug_id start_time end_time : Z) (entry : EventTracerEntry)
    (metadata : option (list Z)) (metadata_len : Z)
    (output : Hooks.DelegateOutput (double := double))
    (tracers : gmap Z Tracer) :
  Hooks.event_tracer_start_profiling_delegate default_entry enabled 0 name
    delegate_debug_id tracers = Some (default_entry, tracers) /\
  Hooks.event_tracer_end_profiling_delegate enabled 0 entry metadata
    metadata_len tracers = Some tracers /\
  Hooks.event_tracer_log_profiling_delegate enabled 0 name
    delegate_debug_id start_time end_time metadata metadata_len tracers
  = Some tracers /\
  Hooks.event_tracer_log_output_delegate enabled 0 name delegate_debug_id
    output tracers = Some tracers.
Proof. by destruct enabled. Qed.

(** * Further properties of the code *)

(** ** Products of extents *)

Lemma product_zero shape : 0 ∈ shape -> product shape = 0.
Proof.
  induction shape as [|x shape IH]; intros Hin; [by apply elem_of_nil in Hin|].
  unfold product in *. simpl.
  apply elem_of_cons in Hin as [<-|Hin]; [lia|]. rewrite IH by done. lia.
Qed.

Lemma product_Permutation (a b : list Z) : a ≡ₚ b -> product a = product b.
Proof.
  unfold product.
  induction 1 as [|x a b _ IH|x y a|a b c _ IHab _ IHbc]; simpl; lia.
Qed.

Lemma product_within_upper shape upper :
  within_upper shape upper -> 0 <= product shape <= product upper.
Proof.
  unfold product.
  induction 1 as [|x u shape upper Hx _ IH]; simpl; [lia|]. nia.
Qed.

(** X1.  A zero extent among the [dim] cells makes the element count
    zero, whatever the other extents are. *)
Theorem compute_numel_zero_extent sizes dim (i : nat) :
  (Z.to_nat dim <= length sizes)%nat ->
  (i < Z.to_nat dim)%nat ->
  sizes !! i = Some 0 ->
  compute_numel sizes dim = 0.
Proof.
  intros Hlen Hi Hzero. rewrite compute_numel_wrapped by done.
  rewrite product_zero; [done|].
  apply list_elem_of_lookup. exists i. by rewrite lookup_take_lt.
Qed.

Lemma compute_numel_zero_extent_witness :
  (Z.to_nat 3 <= length [7; 0; 5])%nat /\
  (1 < Z.to_nat 3)%nat /\
  [7; 0; 5] !! 1%nat = Some 0 /\
  compute_numel [7; 0; 5] 3 = 0.
Proof.
  assert (Z.to_nat 3 <= length [7; 0; 5])%nat as Hlen by (simpl; lia).
  assert (1 < Z.to_nat 3)%nat as Hi by (simpl; lia).
  split; [done|]. split; [done|]. split; [done|].
  apply (compute_numel_zero_extent [7; 0; 5] 3 1 Hlen Hi). done.
Defined.

(** X2.  The element count does not depend on the order of the extents:
    two shapes of [dim] extents that are permutations of each other count
    the same number of elements. *)
Theorem compute_numel_permutation (a b : list Z) dim :
  a ≡ₚ b ->
  length a = Z.to_nat dim ->
  compute_numel a dim = compute_numel b dim.
Proof.
  intros Hperm Hlen. pose proof (Permutation_length Hperm) as Hlen'.
  rewrite !compute_numel_wrapped by lia.
  rewrite !firstn_all2 by lia. by rewrite (product_Permutation _ _ Hperm).
Qed.

Lemma compute_numel_permutation_witness :
  [2; 3; 4] ≡ₚ [4; 2; 3] /\
  length [2; 3; 4] = Z.to_nat 3 /\
  compute_numel [2; 3; 4] 3 = compute_numel [4; 2; 3] 3.
Proof.
  assert ([2; 3; 4] ≡ₚ [4; 2; 3]) as Hperm.
  { change ([2; 3; 4] ≡ₚ [4] ++ [2; 3]).
    rewrite (Permutation_app_comm [4] [2; 3]). done. }
  split; [done|]. split; [done|].
  apply (compute_numel_permutation [2; 3; 4] [4; 2; 3] 3 Hperm). done.
Defined.

(** ** What a resize returns, and what it leaves *)

(** The dynamic case, run forwards: past all the checks the resize
    commits. *)
Lemma resize_dynamic_run t new_sizes strides dim_order :
  dim_ t <> 0 ->
  shape_dynamism_ t <> STATIC ->
  strides_ t = Some strides ->
  dim_order_ t = Some dim_order ->
  Z.of_nat (length new_sizes) = to_size_t (dim_ t) ->
  to_size_t (compute_numel new_sizes (dim_ t)) <= numel_bound_ t ->
  valid_dim_order dim_order (dim_ t) ->
  internal_resize_contiguous t new_sizes
  = (Ok, with_numel_sizes
           (with_strides t
              (assign_strides new_sizes
                 (reverse (take (Z.to_nat (dim_ t)) dim_order)) 1 strides))
           (compute_numel new_sizes (dim_ t))
           (std_copy new_sizes (sizes_ t))).
Proof.
  intros Hdim%Z.eqb_neq Hdyn Hs Hd Hlen%Z.eqb_eq Hbound%Z.leb_le
         Hvalid%validate_dim_order_iff.
  unfold internal_resize_contiguous, resize_dynamic, check_or_return_error,
    dim_order_to_stride.
  rewrite Hlen, Hdim, Hbound, Hs, Hd, Hvalid.
  by destruct (shape_dynamism_ t).
Qed.

(** The code that the dynamic case returns, check by check. *)
Lemma resize_dynamic_code t new_sizes :
  dim_ t <> 0 ->
  shape_dynamism_ t <> STATIC ->
  (internal_resize_contiguous t new_sizes).1
  = if Z.of_nat (length new_sizes) =? to_size_t (dim_ t) then
      if to_size_t (compute_numel new_sizes (dim_ t)) <=? numel_bound_ t then
        match strides_ t, dim_order_ t with
        | Some _, Some dim_order =>
            if validate_dim_order dim_order (Z.to_nat (dim_ t)) then Ok
            else Internal
        | _, _ => Internal
        end
      else NotSupported
    else NotSupported.
Proof.
  intros Hdim%Z.eqb_neq Hdyn.
  unfold internal_resize_contiguous, resize_dynamic, check_or_return_error,
    dim_order_to_stride.
  rewrite Hdim. destruct (_ =? to_size_t _); [|done].
  destruct (shape_dynamism_ t); [done|..].
  all: destruct (_ <=? _); [|done].
  all: destruct (strides_ t); [|done].
  all: destruct (dim_order_ t); [|done].
  all: by destruct (validate_dim_order _ _).
Qed.

(** A success, read backwards: the rank matched, and either nothing was
    written (a scalar, or a static tensor asked for its own sizes) or the
    dynamic case committed. *)
Lemma resize_ok_inv t new_sizes t' :
  internal_resize_contiguous t new_sizes = (Ok, t') ->
  Z.of_nat (length new_sizes) = to_size_t (dim_ t) /\
  (dim_ t = 0 /\ t' = t \/
   dim_ t <> 0 /\ shape_dynamism_ t = STATIC /\ t' = t /\
   std_equal (sizes_ t) (Z.to_nat (dim_ t)) new_sizes = true \/
   dim_ t <> 0 /\ shape_dynamism_ t <> STATIC /\
   exists strides dim_order,
     strides_ t = Some strides /\ dim_order_ t = Some dim_order /\
     to_size_t (compute_numel new_sizes (dim_ t)) <= numel_bound_ t /\
     valid_dim_order dim_order (dim_ t) /\
     t' = with_numel_sizes
            (with_strides t
               (assign_strides new_sizes
                  (reverse (take (Z.to_nat (dim_ t)) dim_order)) 1 strides))
            (compute_numel new_sizes (dim_ t))
            (std_copy new_sizes (sizes_ t))).
Proof.
  intros Hok.
  assert (Z.of_nat (length new_sizes) = to_size_t (dim_ t)) as Hlen.
  { destruct (decide (Z.of_nat (length new_sizes) = to_size_t (dim_ t)))
      as [|Hne]; [done|].
    by rewrite (resize_rank_mismatch _ _ Hne) in Hok. }
  split; [done|].
  destruct (decide (dim_ t = 0)) as [Hzero|Hzero].
  { left. split; [done|].
    pose proof (resize_scalar_or_static t new_sizes (or_introl Hzero)) as Hsame.
    by rewrite Hok in Hsame. }
  right. destruct (decide (shape_dynamism_ t = STATIC)) as [Hstatic|Hdyn].
  - left. split_and!; try done.
    + pose proof (resize_scalar_or_static t new_sizes (or_intror Hstatic))
        as Hsame.
      by rewrite Hok in Hsame.
    + revert Hok.
      unfold internal_resize_contiguous, check_or_return_error.
      apply Z.eqb_eq in Hlen. apply Z.eqb_neq in Hzero.
      rewrite Hlen, Hzero, Hstatic. by destruct (std_equal _ _ _).
  - right. split_and!; try done.
    apply resize_dynamic_ok in Hok
      as (strides & dim_order & Hs & Hd & _ & Hbound & Hvalid & ->);
      try done.
    by exists strides, dim_order.
Qed.

Lemma std_copy_twice (a b dst : list Z) :
  length a = length b -> std_copy b (std_copy a dst) = std_copy b dst.
Proof.
  intros Hlen. unfold std_copy. f_equal.
  by rewrite <- Hlen, drop_app_length.
Qed.

Lemma assign_strides_overwrite shape_a shape_b physical running_a running_b
    strides :
  assign_strides shape_b physical running_b
    (assign_strides shape_a physical running_a strides)
  = assign_strides shape_b physical running_b strides.
Proof.
  apply assign_strides_agree.
  - by rewrite assign_strides_length.
  - intros i Hi. by apply assign_strides_other.
Qed.

(** X3.  After a successful resize of a descriptor over buffers of
    [dim_] cells, under any policy, the sizes of the descriptor are the
    requested ones; and if the element count was that of the old sizes, it
    is now that of the new ones. *)
Theorem resize_ok_sizes_are_requested t new_sizes t' :
  well_formed t ->
  internal_resize_contiguous t new_sizes = (Ok, t') ->
  sizes t' = new_sizes /\
  (numel_ t = compute_numel (sizes_ t) (dim_ t) ->
   numel_ t' = compute_numel new_sizes (dim_ t')).
Proof.
  intros Hwf [Hlen Hcases]%resize_ok_inv.
  pose proof (sizes_well_formed _ Hwf) as Hsizes.
  destruct Hwf as (Hrank & Hbuf & _).
  rewrite to_size_t_id in Hlen by done.
  destruct Hcases as [[Hzero ->]|[(_ & _ & -> & Hequal)
                     |(_ & _ & s & d & _ & _ & _ & _ & ->)]].
  - rewrite Hsizes. rewrite Hzero in *.
    destruct new_sizes, (sizes_ t); simpl in *; try lia. done.
  - apply std_equal_true_iff in Hequal; [|done|lia].
    rewrite Hsizes. split; [done|]. by rewrite Hequal.
  - unfold sizes, std_copy. simpl. split; [|done].
    rewrite take_app_le, firstn_all2 by lia. done.
Qed.

Lemma resize_ok_sizes_are_requested_witness :
  well_formed Sample.t0 /\
  internal_resize_contiguous Sample.t0 [2; 4] = (Ok, Sample.t1) /\
  sizes Sample.t1 = [2; 4] /\
  (numel_ Sample.t0 = compute_numel (sizes_ Sample.t0) (dim_ Sample.t0) ->
   numel_ Sample.t1 = compute_numel [2; 4] (dim_ Sample.t1)).
Proof.
  split; [apply example_t0_well_formed|]. split; [done|].
  apply (resize_ok_sizes_are_requested Sample.t0 [2; 4] Sample.t1);
    [apply example_t0_well_formed|done].
Defined.

(** X4.  A resize that succeeded can be repeated: the same call on the
    resulting descriptor succeeds again and changes nothing. *)
Theorem resize_idempotent t new_sizes t' :
  internal_resize_contiguous t new_sizes = (Ok, t') ->
  internal_resize_contiguous t' new_sizes = (Ok, t').
Proof.
  intros Hok. pose proof Hok as [Hlen Hcases]%resize_ok_inv.
  destruct Hcases as [[_ ->]|[(_ & _ & -> & _)
                     |(Hdim & Hdyn & s & d & Hs & Hd & Hbound & Hvalid & ->)]];
    [done..|].
  erewrite resize_dynamic_run; try done.
  destruct t. simpl in *. unfold with_numel_sizes, with_strides. simpl.
  by rewrite std_copy_twice, assign_strides_overwrite.
Qed.

Lemma resize_idempotent_witness :
  internal_resize_contiguous Sample.t0 [2; 4] = (Ok, Sample.t1) /\
  internal_resize_contiguous Sample.t1 [2; 4] = (Ok, Sample.t1).
Proof.
  split; [done|].
  apply (resize_idempotent Sample.t0 [2; 4] Sample.t1). done.
Defined.

(** X5.  Earlier successful resizes leave no trace: after a successful
    resize, a further resize returns the code it would have returned on
    the original descriptor, and when it succeeds it yields the very
    descriptor that the direct resize yields.  In particular shrinking a
    tensor does not shrink what it can later be resized to. *)
Theorem resize_forgets_history t shape_a shape_b t1 :
  internal_resize_contiguous t shape_a = (Ok, t1) ->
  (internal_resize_contiguous t1 shape_b).1
  = (internal_resize_contiguous t shape_b).1 /\
  (forall t2,
     internal_resize_contiguous t1 shape_b = (Ok, t2) ->
     internal_resize_contiguous t shape_b = (Ok, t2)).
Proof.
  intros [Hlen Hcases]%resize_ok_inv.
  destruct Hcases as [[_ ->]|[(_ & _ & -> & _)
                     |(Hdim & Hdyn & s & d & Hs & Hd & Hbound & Hvalid & ->)]];
    [done..|].
  split.
  - rewrite !resize_dynamic_code by done. simpl. by rewrite Hs, Hd.
  - intros t2 [Hlen2 Hcases]%resize_ok_inv. simpl in *.
    destruct Hcases as [[? _]|[(_ & ? & _)
                       |(_ & _ & s' & d' & [= <-] & Hd' & Hbound2 & Hvalid2 & ->)]];
      [done..|].
    assert (d' = d) as -> by congruence.
    erewrite resize_dynamic_run; try done.
    destruct t. simpl in *. unfold with_numel_sizes, with_strides. simpl.
    rewrite std_copy_twice, assign_strides_overwrite; [done|lia].
Qed.

Lemma resize_forgets_history_witness :
  internal_resize_contiguous Sample.t0 [2; 4] = (Ok, Sample.t1) /\
  (internal_resize_contiguous Sample.t1 [4; 3]).1
  = (internal_resize_contiguous Sample.t0 [4; 3]).1 /\
  (forall t2,
     internal_resize_contiguous Sample.t1 [4; 3] = (Ok, t2) ->
     internal_resize_contiguous Sample.t0 [4; 3] = (Ok, t2)).
Proof.
  split; [done|].
  apply (resize_forgets_history Sample.t0 [2; 4] [4; 3] Sample.t1). done.
Defined.

(** X6.  A dynamic tensor of positive rank that lacks its strides buffer
    or its dim-order buffer cannot be resized: a request whose element
    count, read as a [size_t], is within the bound is answered with
    [Internal], one past the bound with [NotSupported] (the bound is
    checked first), and nothing is written either way. *)
Theorem resize_missing_buffer t new_sizes :
  shape_dynamism_ t <> STATIC ->
  0 < dim_ t <= ssize_max ->
  Z.of_nat (length new_sizes) = dim_ t ->
  strides_ t = None \/ dim_order_ t = None ->
  internal_resize_contiguous t new_sizes
  = (if to_size_t (compute_numel new_sizes (dim_ t)) <=? numel_bound_ t
     then Internal else NotSupported, t).
Proof.
  intros Hdyn Hrank Hlen Hnull.
  rewrite (surjective_pairing (internal_resize_contiguous _ _)).
  assert ((internal_resize_contiguous t new_sizes).1
          = if to_size_t (compute_numel new_sizes (dim_ t)) <=? numel_bound_ t
            then Internal else NotSupported) as Hcode.
  { rewrite resize_dynamic_code by (done || lia).
    rewrite to_size_t_id, Hlen, Z.eqb_refl by lia.
    destruct (_ <=? _); [|done].
    destruct Hnull as [->| ->]; [done|]. by destruct (strides_ t). }
  rewrite resize_error_unchanged; [by rewrite Hcode|].
  rewrite Hcode. by destruct (_ <=? _).
Qed.

Lemma resize_missing_buffer_witness :
  shape_dynamism_ Sample.no_strides <> STATIC /\
  0 < dim_ Sample.no_strides <= ssize_max /\
  Z.of_nat (length [-1; 4]) = dim_ Sample.no_strides /\
  (strides_ Sample.no_strides = None \/ dim_order_ Sample.no_strides = None) /\
  internal_resize_contiguous Sample.no_strides [-1; 4]
  = (if to_size_t (compute_numel [-1; 4] (dim_ Sample.no_strides))
        <=? numel_bound_ Sample.no_strides then Internal
     else NotSupported, Sample.no_strides).
Proof.
  split; [done|]. split; [done|]. split; [done|]. split; [by left|].
  apply (resize_missing_buffer Sample.no_strides [-1; 4]);
    [done|done|done|by left].
Defined.

(** X7.  [NotSupported] means a refused request and nothing else: over
    buffers of [dim_] cells a resize returns it exactly when the rank of
    the request differs or the request is refused by the policy (a static
    tensor asked for other sizes, a dynamic one for an element count
    that, read as a [size_t], is past its bound). *)
Theorem resize_not_supported_iff t new_sizes :
  well_formed t ->
  (internal_resize_contiguous t new_sizes).1 = NotSupported
  <-> Z.of_nat (length new_sizes) <> dim_ t \/ refused_by_policy t new_sizes.
Proof.
  intros (Hrank & Hbuf & _). unfold refused_by_policy.
  destruct (decide (Z.of_nat (length new_sizes) = dim_ t)) as [Hlen|Hlen].
  2: { rewrite resize_rank_mismatch by (by rewrite to_size_t_id).
       split; [by left|done]. }
  destruct (decide (dim_ t = 0)) as [Hzero|Hzero].
  { unfold internal_resize_contiguous, check_or_return_error.
    rewrite to_size_t_id, Hlen, Z.eqb_refl, Hzero by done. simpl.
    split; [done|]. intros [?|[? _]]; [done|lia]. }
  destruct (decide (shape_dynamism_ t = STATIC)) as [Hstatic|Hdyn].
  - unfold internal_resize_contiguous, check_or_return_error.
    apply Z.eqb_neq in Hzero as Hzero'.
    rewrite to_size_t_id, Hlen, Z.eqb_refl, Hzero', Hstatic by done.
    destruct (std_equal _ _ _) eqn:Hequal; simpl.
    + apply std_equal_true_iff in Hequal; [|done|lia].
      split; [done|]. intros [?|(_ & _ & ?)]; done.
    + split; [|done]. intros _. right. split_and!; try done; try lia.
      intros ->. apply not_true_iff_false in Hequal. apply Hequal.
      apply std_equal_true_iff; [done|lia|done].
  - rewrite resize_dynamic_code by done.
    rewrite to_size_t_id, Hlen, Z.eqb_refl by done.
    destruct (Z.leb_spec (to_size_t (compute_numel new_sizes (dim_ t)))
                (numel_bound_ t)) as [Hle|Hgt].
    + split.
      * destruct (strides_ t), (dim_order_ t);
          try destruct (validate_dim_order _ _); done.
      * intros [?|(_ & _ & Hpolicy)]; [done|].
        destruct (shape_dynamism_ t); [done|lia..].
    + split; [|done]. intros _. right. split_and!; try done; try lia.
      by destruct (shape_dynamism_ t).
Qed.

(** X8.  A dynamic tensor with its buffers and a valid dim order fits
    every shape within its upper bounds: if the bound of the descriptor
    covers the product of per-axis bounds [upper] (an [ssize_t]), then a
    resize to any shape with [0 <= extent <= bound] on every axis
    succeeds and leaves the product of that shape as the element count. *)
Theorem resize_within_upper_bounds t new_sizes upper strides dim_order :
  shape_dynamism_ t <> STATIC ->
  0 < dim_ t <= ssize_max ->
  strides_ t = Some strides ->
  dim_order_ t = Some dim_order ->
  valid_dim_order dim_order (dim_ t) ->
  Z.of_nat (length upper) = dim_ t ->
  product upper <= ssize_max ->
  product upper <= numel_bound_ t ->
  within_upper new_sizes upper ->
  (internal_resize_contiguous t new_sizes).1 = Ok /\
  numel_ (internal_resize_contiguous t new_sizes).2 = product new_sizes /\
  sizes_ (internal_resize_contiguous t new_sizes).2
  = std_copy new_sizes (sizes_ t).
Proof.
  intros Hdyn Hrank Hs Hd Hvalid Hupper Hfit Hbound Hwithin.
  pose proof (product_within_upper _ _ Hwithin) as Hprod.
  pose proof (Forall2_length _ _ _ Hwithin) as Hlen.
  assert (compute_numel new_sizes (dim_ t) = product new_sizes) as Hnumel.
  { rewrite compute_numel_exact; rewrite ?firstn_all2 by lia; [done|lia|].
    unfold in_ssize, ssize_min. lia. }
  rewrite (resize_dynamic_run t new_sizes strides dim_order);
    [simpl; by rewrite Hnumel|lia|done..| | |done].
  - rewrite to_size_t_id; lia.
  - rewrite Hnumel, to_size_t_id; lia.
Qed.

Lemma resize_within_upper_bounds_witness :
  shape_dynamism_ Sample.t1 <> STATIC /\
  0 < dim_ Sample.t1 <= ssize_max /\
  strides_ Sample.t1 = Some [4; 1] /\
  dim_order_ Sample.t1 = Some [0; 1] /\
  valid_dim_order [0; 1] (dim_ Sample.t1) /\
  Z.of_nat (length [3; 4]) = dim_ Sample.t1 /\
  product [3; 4] <= ssize_max /\
  product [3; 4] <= numel_bound_ Sample.t1 /\
  within_upper [3; 0] [3; 4] /\
  (internal_resize_contiguous Sample.t1 [3; 0]).1 = Ok /\
  numel_ (internal_resize_contiguous Sample.t1 [3; 0]).2 = product [3; 0] /\
  sizes_ (internal_resize_contiguous Sample.t1 [3; 0]).2
  = std_copy [3; 0] (sizes_ Sample.t1).
Proof.
  assert (valid_dim_order [0; 1] (dim_ Sample.t1)) as Hvalid
    by (by apply validate_dim_order_iff).
  assert (product [3; 4] <= ssize_max) as Hfit by (by vm_compute).
  assert (product [3; 4] <= numel_bound_ Sample.t1) as Hbound
    by (by vm_compute).
  assert (within_upper [3; 0] [3; 4]) as Hwithin
    by (repeat constructor; by vm_compute).
  split; [done|]. split; [done|]. split; [done|]. split; [done|].
  split; [done|]. split; [done|]. split; [done|]. split; [done|].
  split; [done|].
  apply (resize_within_upper_bounds Sample.t1 [3; 0] [3; 4] [4; 1] [0; 1]);
    done.
Defined.

Lemma resize_not_supported_iff_witness :
  well_formed Sample.t0 /\
  ((internal_resize_contiguous Sample.t0 [-1; 4]).1 = NotSupported
   <-> Z.of_nat (length [-1; 4]) <> dim_ Sample.t0
       \/ refused_by_policy Sample.t0 [-1; 4]).
Proof.
  split; [apply example_t0_well_formed|].
  apply (resize_not_supported_iff Sample.t0 [-1; 4]).
  apply example_t0_well_formed.
Defined.

(** X9.  A dynamic tensor of positive rank with its buffers and a valid
    dim order can always be resized to a shape with a zero extent, as long
    as its bound is not negative; it then counts no element. *)
Theorem resize_to_empty_shape t new_sizes strides dim_order :
  shape_dynamism_ t <> STATIC ->
  0 < dim_ t <= ssize_max ->
  strides_ t = Some strides ->
  dim_order_ t = Some dim_order ->
  valid_dim_order dim_order (dim_ t) ->
  Z.of_nat (length new_sizes) = dim_ t ->
  0 <= numel_bound_ t ->
  0 ∈ new_sizes ->
  (internal_resize_contiguous t new_sizes).1 = Ok /\
  numel_ (internal_resize_contiguous t new_sizes).2 = 0.
Proof.
  intros Hdyn Hrank Hs Hd Hvalid Hlen Hbound Hzero.
  assert (compute_numel new_sizes (dim_ t) = 0) as Hnumel.
  { rewrite compute_numel_wrapped, firstn_all2 by lia.
    by rewrite product_zero. }
  rewrite (resize_dynamic_run t new_sizes strides dim_order);
    [simpl; by rewrite Hnumel|lia|done..| | |done].
  - rewrite to_size_t_id; lia.
  - by rewrite Hnumel.
Qed.

Lemma resize_to_empty_shape_witness :
  shape_dynamism_ Sample.t0 <> STATIC /\
  0 < dim_ Sample.t0 <= ssize_max /\
  strides_ Sample.t0 = Some [4; 1] /\
  dim_order_ Sample.t0 = Some [0; 1] /\
  valid_dim_order [0; 1] (dim_ Sample.t0) /\
  Z.of_nat (length [1000; 0]) = dim_ Sample.t0 /\
  0 <= numel_bound_ Sample.t0 /\
  0 ∈ [1000; 0] /\
  (internal_resize_contiguous Sample.t0 [1000; 0]).1 = Ok /\
  numel_ (internal_resize_contiguous Sample.t0 [1000; 0]).2 = 0.
Proof.
  assert (valid_dim_order [0; 1] (dim_ Sample.t0)) as Hvalid
    by (by apply validate_dim_order_iff).
  assert (0 ∈ [1000; 0]) as Hzero by (apply elem_of_cons; right; left).
  split; [done|]. split; [done|]. split; [done|]. split; [done|].
  split; [done|]. split; [done|]. split; [done|]. split; [done|].
  apply (resize_to_empty_shape Sample.t0 [1000; 0] [4; 1] [0; 1]); done.
Defined.

Section ReachableExtras.

Variable isValid : ScalarType -> bool.
Variable allowed : list Z -> Prop.

(** X10.  A constructed and resized dynamic tensor with its buffers and
    a valid dim order accepts every reordering of its current sizes (its
    current sizes among them), and keeps its element count: transposing
    the shape never runs into the bound. *)
Theorem resize_to_permuted_sizes t new_sizes strides dim_order :
  reachable isValid allowed t ->
  shape_dynamism_ t <> STATIC ->
  0 < dim_ t ->
  strides_ t = Some strides ->
  dim_order_ t = Some dim_order ->
  valid_dim_order dim_order (dim_ t) ->
  new_sizes ≡ₚ sizes t ->
  (internal_resize_contiguous t new_sizes).1 = Ok /\
  numel_ (internal_resize_contiguous t new_sizes).2 = numel_ t /\
  sizes (internal_resize_contiguous t new_sizes).2 = new_sizes.
Proof.
  intros Hreach Hdyn Hdim Hs Hd Hvalid Hperm.
  pose proof (reachable_size_t_bound _ _ _ Hreach) as Hbound.
  apply reachable_invariant in Hreach as (Hwf & Hsync & _).
  rewrite (sizes_well_formed _ Hwf) in Hperm.
  pose proof (Permutation_length Hperm) as Hlen.
  destruct Hwf as (Hrank & Hbuf & _).
  assert (compute_numel new_sizes (dim_ t) = numel_ t) as Hnumel.
  { rewrite Hsync, !compute_numel_wrapped, !firstn_all2 by lia.
    by rewrite (product_Permutation _ _ Hperm). }
  rewrite (resize_dynamic_run t new_sizes strides dim_order);
    [|lia|done..| | |done].
  - simpl. split_and!; try done. unfold sizes, std_copy. simpl.
    rewrite take_app_le, firstn_all2 by lia. done.
  - rewrite to_size_t_id; lia.
  - by rewrite Hnumel.
Qed.

Section Bytes.

Variable elementSize : ScalarType -> Z.

(** X11.  As long as every shape passed to the constructor and to the
    resizes has non-negative extents with a product in [ssize_t], and the
    bytes of the bound fit a [size_t], [nbytes()] is the element count
    times [element_size()] and never exceeds the bytes of the bound, the
    bytes the buffer was planned for. *)
Theorem nbytes_within_planned t :
  reachable isValid allowed t ->
  (forall shape, allowed shape -> extents_fit shape) ->
  0 <= elementSize (type_ t) <= ssize_max ->
  numel_bound_ t * elementSize (type_ t) < 2 ^ 64 ->
  nbytes elementSize t = numel_ t * element_size elementSize t /\
  nbytes elementSize t <= numel_bound_ t * element_size elementSize t.
Proof.
  intros (_ & _ & Hbound & Hnonneg)%reachable_invariant Hfit Hwidth Hplanned.
  specialize (Hnonneg Hfit).
  assert (element_size elementSize t = elementSize (type_ t)) as ->.
  { apply wrap_ssize_id. unfold in_ssize, ssize_min. lia. }
  assert (0 <= numel_ t * elementSize (type_ t)
          <= numel_bound_ t * elementSize (type_ t)) as Hbytes by nia.
  assert (nbytes elementSize t = numel_ t * elementSize (type_ t)) as ->.
  { unfold nbytes, to_size_t.
    rewrite Z.mul_mod_idemp_l by lia. apply Z.mod_small. lia. }
  split; [done|lia].
Qed.

End Bytes.

End ReachableExtras.

Lemma resize_to_permuted_sizes_witness :
  reachable Sample.every_type any_shape Sample.t1 /\
  shape_dynamism_ Sample.t1 <> STATIC /\
  0 < dim_ Sample.t1 /\
  strides_ Sample.t1 = Some [4; 1] /\
  dim_order_ Sample.t1 = Some [0; 1] /\
  valid_dim_order [0; 1] (dim_ Sample.t1) /\
  [4; 2] ≡ₚ sizes Sample.t1 /\
  (internal_resize_contiguous Sample.t1 [4; 2]).1 = Ok /\
  numel_ (internal_resize_contiguous Sample.t1 [4; 2]).2 = numel_ Sample.t1 /\
  sizes (internal_resize_contiguous Sample.t1 [4; 2]).2 = [4; 2].
Proof.
  assert (reachable Sample.every_type any_shape Sample.t1) as Hreach
    by (by apply example_t1_reachable).
  assert (valid_dim_order [0; 1] (dim_ Sample.t1)) as Hvalid
    by (by apply validate_dim_order_iff).
  assert ([4; 2] ≡ₚ sizes Sample.t1) as Hperm by apply Permutation_swap.
  split; [done|]. split; [done|]. split; [done|]. split; [done|].
  split; [done|]. split; [done|]. split; [done|].
  apply (resize_to_permuted_sizes Sample.every_type any_shape Sample.t1
           [4; 2] [4; 1] [0; 1]); done.
Defined.

Lemma nbytes_within_planned_witness :
  reachable Sample.every_type extents_fit Sample.t1 /\
  (forall shape, extents_fit shape -> extents_fit shape) /\
  0 <= Sample.four_bytes (type_ Sample.t1) <= ssize_max /\
  numel_bound_ Sample.t1 * Sample.four_bytes (type_ Sample.t1) < 2 ^ 64 /\
  nbytes Sample.four_bytes Sample.t1
  = numel_ Sample.t1 * element_size Sample.four_bytes Sample.t1 /\
  nbytes Sample.four_bytes Sample.t1
  <= numel_bound_ Sample.t1 * element_size Sample.four_bytes Sample.t1.
Proof.
  assert (reachable Sample.every_type extents_fit Sample.t1) as Hreach
    by (apply example_t1_reachable;
        [apply extents_fit_3_4|apply extents_fit_2_4]).
  split; [done|]. split; [done|]. split; [done|]. split; [done|].
  apply (nbytes_within_planned Sample.every_type extents_fit
           Sample.four_bytes Sample.t1 Hreach); done.
Defined.

(** X12.  A static tensor, and a scalar under any policy, is never
    written by a resize: after any run of resize calls, whatever shapes
    they ask for and whatever they return, the descriptor is the one the
    run started with. *)
Theorem static_or_scalar_never_written t shapes :
  dim_ t = 0 \/ shape_dynamism_ t = STATIC ->
  resize_all t shapes = t.
Proof.
  intros Hstill. unfold resize_all.
  induction shapes as [|shape shapes IH]; [done|]. simpl.
  by rewrite resize_scalar_or_static.
Qed.

Lemma static_or_scalar_never_written_witness :
  (dim_ Sample.static_3_4 = 0 \/ shape_dynamism_ Sample.static_3_4 = STATIC) /\
  resize_all Sample.static_3_4 [[3; 5]; [3; 4]; [12]; []]
  = Sample.static_3_4.
Proof.
  split; [by right|].
  apply (static_or_scalar_never_written Sample.static_3_4
           [[3; 5]; [3; 4]; [12]; []]).
  by right.
Defined.

(** X13.  In a build without [ET_EVENT_TRACER_ENABLED] the hooks cost
    nothing: whatever the tracer pointer (null, live or dangling), none
    of them calls a method, every tracer object is left as it is, and the
    start hook returns the default-constructed entry. *)
Theorem disabled_hooks_do_nothing
    {Tracer EventTracerEntry double : Type} (default_entry : EventTracerEntry)
    (methods : Hooks.EventTracer (Tracer := Tracer)
                 (EventTracerEntry := EventTracerEntry) (double := double))
    (event_tracer : Z) (name : option (list Z))
    (delegate_debug_id start_time end_time : Z) (entry : EventTracerEntry)
    (metadata : option (list Z)) (metadata_len : Z)
    (output : Hooks.DelegateOutput (double := double))
    (tracers : gmap Z Tracer) :
  Hooks.event_tracer_start_profiling_delegate default_entry false event_tracer
    name delegate_debug_id tracers = Some (default_entry, tracers) /\
  Hooks.event_tracer_end_profiling_delegate false event_tracer entry metadata
    metadata_len tracers = Some tracers /\
  Hooks.event_tracer_log_profiling_delegate false event_tracer name
    delegate_debug_id start_time end_time metadata metadata_len tracers
  = Some tracers /\
  Hooks.event_tracer_log_output_delegate false event_tracer name
    delegate_debug_id output tracers = Some tracers.
Proof. done. Qed.

(** X14.  [DYNAMIC_UNBOUND] is resized as [DYNAMIC_BOUND] is: over the
    same buffers and the same bound, the two policies return the same
    code for every request and leave the same sizes, strides and element
    count; an unbound tensor cannot grow past its bound either. *)
Theorem unbound_resized_as_bound t new_sizes :
  let bound := internal_resize_contiguous (with_dynamism t DYNAMIC_BOUND)
                 new_sizes in
  internal_resize_contiguous (with_dynamism t DYNAMIC_UNBOUND) new_sizes
  = (bound.1, with_dynamism bound.2 DYNAMIC_UNBOUND).
Proof.
  unfold internal_resize_contiguous, resize_dynamic, check_or_return_error.
  simpl.
  destruct (_ =? to_size_t _); [|done].
  destruct (_ =? 0); [done|].
  destruct (_ <=? _); [|done].
  destruct (strides_ t) as [strides|]; [|done].
  destruct (dim_order_ t) as [dim_order|]; [|done].
  by destruct (dim_order_to_stride _ _ _ _) as [[] ?].
Qed.
